(** * GoogleHelper: the Google contacts adapter and the upload form

    A shallow embedding of [GoogleHelper.py]: the label filter, the single
    and paginated contact fetch, contact creation and update, the reverse
    label lookup and the payload builder [GoogleContactUploadForm]; then
    the construction of the adapter with its label mapping, the creation,
    lookup and deletion of labels and the removal of a cached contact.
    The credential handling of [__buildService] is left out: the adapter
    starts from an authorized service handle.

    Python values that travel through the adapter are JSON documents; they
    are embedded as [pyval].  Exceptions are embedded as a sum type and
    threaded with a small error monad; the adapter's attributes, the logger
    and the remote service are threaded as an explicit world. *)

From Stdlib Require Import ZArith String Ascii List Bool Lia.
From stdpp Require Import base gmap strings pretty.
Import ListNotations.
Set Warnings "-register-all".
Open Scope string_scope.
Open Scope list_scope.

(** ** Python values *)

Module Py.

(** A JSON document as the API client hands it over.  A [PDict] keeps its
    entries in insertion order; a key is looked up at its first entry.
    JSON numbers are kept as integers. *)
Inductive pyval : Type :=
| PNone
| PBool (b : bool)
| PInt (n : Z)
| PStr (s : string)
| PList (xs : list pyval)
| PDict (kvs : list (string * pyval)).

Definition pydict := list (string * pyval).

(** The exceptions the adapter can meet.  Every one of them is a subclass
    of Python's [Exception]; [HttpError] is the API client's remote failure
    and carries what [_get_reason()] returns; [PyException] is a plain
    [Exception(msg)]; [OtherError] stands for any further exception a remote
    call can raise (transport failures and the like). *)
Inductive exn : Type :=
| KeyError (key : pyval)
| IndexError
| TypeError
| AttributeError
| HttpError (reason : string)
| PyException (msg : string)
| OtherError (what : string).

Inductive outcome (A : Type) : Type :=
| Ok (a : A)
| Raise (e : exn).
Arguments Ok {A} a.
Arguments Raise {A} e.

Definition bind {A B} (r : outcome A) (k : A -> outcome B) : outcome B :=
  match r with
  | Ok a => k a
  | Raise e => Raise e
  end.

Notation "'let*' x ':=' r 'in' k" := (bind r (fun x => k))
  (at level 10, x name, r at level 100, k at level 200).

(** [[f(x) for x in l]]: left to right, the first exception ends it. *)
Fixpoint mapM {A B} (f : A -> outcome B) (l : list A) : outcome (list B) :=
  match l with
  | [] => Ok []
  | x :: r => let* y := f x in let* ys := mapM f r in Ok (y :: ys)
  end.

(** [[x for x in l if p(x)]]. *)
Fixpoint filterM {A} (p : A -> outcome bool) (l : list A) : outcome (list A) :=
  match l with
  | [] => Ok []
  | x :: r => let* b := p x in let* ys := filterM p r in Ok (if b then x :: ys else ys)
  end.

Fixpoint assoc (k : string) (d : pydict) : option pyval :=
  match d with
  | [] => None
  | (k', v) :: r => if String.eqb k k' then Some v else assoc k r
  end.

(** [d[k] = v] on a dict: an existing entry keeps its place. *)
Fixpoint dict_set (k : string) (v : pyval) (d : pydict) : pydict :=
  match d with
  | [] => [(k, v)]
  | (k', v') :: r =>
      if String.eqb k k' then (k', v) :: r else (k', v') :: dict_set k v r
  end.

Definition dict_remove (k : string) (d : pydict) : pydict :=
  List.filter (fun kv => negb (String.eqb k (fst kv))) d.

(** [d.pop(k)] without a default. *)
Definition dict_pop (k : string) (d : pydict) : outcome (pyval * pydict) :=
  match assoc k d with
  | Some v => Ok (v, dict_remove k d)
  | None => Raise (KeyError (PStr k))
  end.

(** The dict display that unpacks [d] and then [extra]. *)
Definition dict_merge (d extra : pydict) : pydict :=
  fold_left (fun acc kv => dict_set (fst kv) (snd kv) acc) extra d.

(** [v[k]] for a string key [k]. *)
Definition getitem (v : pyval) (k : string) : outcome pyval :=
  match v with
  | PDict d =>
      match assoc k d with
      | Some x => Ok x
      | None => Raise (KeyError (PStr k))
      end
  | _ => Raise TypeError
  end.

Definition chars (s : string) : list pyval :=
  List.map (fun c => PStr (String c EmptyString)) (list_ascii_of_string s).

(** [v[0]]. *)
Definition getitem0 (v : pyval) : outcome pyval :=
  match v with
  | PList (x :: _) => Ok x
  | PList [] => Raise IndexError
  | PStr (String c _) => Ok (PStr (String c EmptyString))
  | PStr EmptyString => Raise IndexError
  | PDict _ => Raise (KeyError (PInt 0))
  | _ => Raise TypeError
  end.

(** [v.get(k, dflt)]: only a dict has the method. *)
Definition get (v : pyval) (k : string) (dflt : pyval) : outcome pyval :=
  match v with
  | PDict d => Ok (default dflt (assoc k d))
  | _ => Raise AttributeError
  end.

(** [for x in v]: the elements of a list, the characters of a string, the
    keys of a dict. *)
Definition iter (v : pyval) : outcome (list pyval) :=
  match v with
  | PList l => Ok l
  | PStr s => Ok (chars s)
  | PDict d => Ok (List.map (fun kv => PStr (fst kv)) d)
  | _ => Raise TypeError
  end.

(** Truth value of [v] in a condition. *)
Definition truthy (v : pyval) : bool :=
  match v with
  | PNone => false
  | PBool b => b
  | PInt n => negb (Z.eqb n 0)
  | PStr s => negb (String.eqb s "")
  | PList l => match l with [] => false | _ => true end
  | PDict d => match d with [] => false | _ => true end
  end.

Definition nonempty {A} (l : list A) : bool :=
  match l with [] => false | _ => true end.

(** [any(bs)] and [all(bs)] on a list of booleans. *)
Definition any (bs : list bool) : bool := existsb (fun b => b) bs.
Definition all (bs : list bool) : bool := forallb (fun b => b) bs.

(** [v in labels] where [labels] is a list of strings: only an equal string
    is a member. *)
Definition is_in (v : pyval) (labels : list string) : bool :=
  match v with
  | PStr s => existsb (String.eqb s) labels
  | _ => false
  end.

(** [s.split(sep)] for a one-character separator. *)
Fixpoint split (sep : ascii) (s : string) : list string :=
  match s with
  | EmptyString => [EmptyString]
  | String c r =>
      if Ascii.eqb c sep then EmptyString :: split sep r
      else match split sep r with
           | [] => [String c EmptyString]
           | w :: ws => String c w :: ws
           end
  end.

(** [needle in s] on strings. *)
Fixpoint contains (needle s : string) : bool :=
  String.prefix needle s
  || match s with
     | EmptyString => false
     | String _ r => contains needle r
     end.

End Py.
Import Py.

(** ** The label filter *)

(** [labelFilter]: the include and the exclude list of label ids. *)
Record LabelFilter : Type := {
  include : list string;
  exclude : list string
}.

(** [contactLabel["contactGroupMembership"]["contactGroupId"]]. *)
Definition group_id (contactLabel : pyval) : outcome pyval :=
  let* m := getitem contactLabel "contactGroupMembership" in
  getitem m "contactGroupId".

(** [[test(group id of contactLabel) for contactLabel in
    contact["memberships"]]]. *)
Definition label_flags (test : pyval -> bool) (contact : pyval)
  : outcome (list bool) :=
  let* ms := getitem contact "memberships" in
  let* labels := iter ms in
  mapM (fun contactLabel => let* g := group_id contactLabel in Ok (test g)) labels.

(** The condition of the first comprehension: [any([...]) and all([...])];
    the second list is only built when the first holds a [True]. *)
Definition include_condition (lf : LabelFilter) (contact : pyval)
  : outcome bool :=
  let* inc := label_flags (fun g => is_in g (include lf)) contact in
  if any inc then
    let* exc := label_flags (fun g => negb (is_in g (exclude lf))) contact in
    Ok (all exc)
  else Ok false.

(** The condition of the second comprehension. *)
Definition exclude_condition (lf : LabelFilter) (contact : pyval)
  : outcome bool :=
  let* exc := label_flags (fun g => negb (is_in g (exclude lf))) contact in
  Ok (all exc).

(** [Google.__filterContactsByLabel]. *)
Definition filterContactsByLabel (lf : LabelFilter) (contactList : list pyval)
  : outcome (list pyval) :=
  if nonempty (include lf) then filterM (include_condition lf) contactList
  else if nonempty (exclude lf) then filterM (exclude_condition lf) contactList
  else Ok contactList.

(** *** The filter as the specification words it *)

(** The memberships a contact carries: the elements of its [memberships]
    entry, none when there is no such entry. *)
Definition memberships_of (contact : pyval) : list pyval :=
  match getitem contact "memberships" with
  | Ok ms => match iter ms with Ok l => l | Raise _ => [] end
  | Raise _ => []
  end.

(** A membership is in a label set when its group id is one of the set. *)
Definition membership_in (labels : list string) (m : pyval) : bool :=
  match group_id m with
  | Ok g => is_in g labels
  | Raise _ => false
  end.

Definition has_label_in (labels : list string) (contact : pyval) : bool :=
  existsb (membership_in labels) (memberships_of contact).

(** The three cases of the label-filter invariant. *)
Definition passes (lf : LabelFilter) (contact : pyval) : bool :=
  match include lf, exclude lf with
  | _ :: _, _ => has_label_in (include lf) contact
                 && negb (has_label_in (exclude lf) contact)
  | [], _ :: _ => negb (has_label_in (exclude lf) contact)
  | [], [] => true
  end.

(** A contact the two comprehensions can evaluate: it has a [memberships]
    entry that can be iterated and whose every element carries
    [contactGroupMembership.contactGroupId]. *)
Definition well_formed (contact : pyval) : Prop :=
  exists ms labels ids,
    getitem contact "memberships" = Ok ms /\
    iter ms = Ok labels /\
    mapM group_id labels = Ok ids.

(** ** The adapter [Google] *)

(** The remote People API as the adapter's [service] handle reaches it.
    Each field is one request, [....execute()] included: it takes the
    request's arguments and the state of the remote side and gives the
    parsed response or the exception raised, with the remote state after
    the request. *)
Record Service (R : Type) : Type := {
  (** [people().get(..)] with the keyword arguments [parameters] *)
  people_get : pydict -> R -> outcome pyval * R;
  (** [people().connections().list(..)] with the keyword arguments
      [parameters] *)
  connections_list : pydict -> R -> outcome pyval * R;
  (** [people().createContact(personFields=.., body=..)] *)
  people_createContact : string -> pyval -> R -> outcome pyval * R;
  (** [people().updateContact(resourceName=.., updatePersonFields=..,
      body=..)] *)
  people_updateContact : pyval -> string -> pyval -> R -> outcome pyval * R
}.
Arguments people_get {R} _ _ _.
Arguments connections_list {R} _ _ _.
Arguments people_createContact {R} _ _ _ _.
Arguments people_updateContact {R} _ _ _ _ _.

(** Modelled from the spec: the sync-token persistence collaborator
    ([DatabaseHelper.Database], which is not among the sources).  It is
    handed the sync token of a finished walk for storage; the model keeps
    the token last handed over. *)
Record Database : Type := {
  storedSyncToken : option pyval
}.

Definition updateGoogleNextSyncToken (token : pyval) (db : Database)
  : Database :=
  {| storedSyncToken := Some token |}.

(** The levels of [logging.Logger] the adapter uses. *)
Inductive level : Type := Info | Warning | Error.

Definition syncFields : string :=
  "addresses,biographies,birthdays,emailAddresses,genders,"
  +:+ "memberships,metadata,names,nicknames,occupations,organizations,phoneNumbers".

Definition updateFields : string :=
  "addresses,biographies,birthdays,clientData,emailAddresses,"
  +:+ "events,externalIds,genders,imClients,interests,locales,locations,memberships,"
  +:+ "miscKeywords,names,nicknames,occupations,organizations,phoneNumbers,relations,"
  +:+ "sipAddresses,urls,userDefined".

(** [result.get('connections', [])] as [contacts += ...] iterates it. *)
Definition page_contacts (result : pyval) : outcome (list pyval) :=
  let* connections := get result "connections" (PList []) in
  iter connections.

(** A value that can be a dict key. *)
Definition hashable (v : pyval) : bool :=
  match v with
  | PList _ | PDict _ => false
  | _ => true
  end.

(** Two lists are equal when they are as long and equal element by
    element. *)
Fixpoint all2 {A} (eq : A -> A -> bool) (xs ys : list A) : bool :=
  match xs, ys with
  | [], [] => true
  | x :: xs, y :: ys => eq x y && all2 eq xs ys
  | _, _ => false
  end.

(** Every entry of [d] has its key in [e], with an equal value. *)
Fixpoint entries_in (eq : pyval -> pyval -> bool) (e d : pydict) : bool :=
  match d with
  | [] => true
  | (k, v) :: d =>
      match assoc k e with
      | Some w => eq v w
      | None => false
      end && entries_in eq e d
  end.

(** Python's [==] on JSON values: a bool equals the integer 0 or 1 it
    stands for, lists are equal element by element, dicts are equal when
    they have as many entries and every entry of the first has an equal
    value under its key in the second. *)
Fixpoint py_eq (a b : pyval) : bool :=
  match a, b with
  | PNone, PNone => true
  | PBool x, PBool y => Bool.eqb x y
  | PBool x, PInt n => Z.eqb n (if x then 1 else 0)
  | PInt n, PBool x => Z.eqb n (if x then 1 else 0)
  | PInt m, PInt n => Z.eqb m n
  | PStr s, PStr t => String.eqb s t
  | PList xs, PList ys => all2 py_eq xs ys
  | PDict d, PDict e =>
      Nat.eqb (length d) (length e) && entries_in py_eq e d
  | _, _ => false
  end.

Section Adapter.

Context {R : Type}.
Variable svc : Service R.

(** Python's [str()] on a JSON value, as f-strings and [str(..)] apply it,
    and on a caught exception. *)
Variable py_str : pyval -> string.
Variable exn_str : exn -> string.

(** The attributes of a [Google] object, with the records the logger has
    received ([log], oldest first) and the state of the remote side behind
    [self.service].  [createdContacts] is the dict of the ids marked as
    created, kept as its keys in insertion order (every value is [True]).
    What the methods write to the console is left out. *)
Record Google : Type := {
  labelFilter : LabelFilter;
  database : option Database;
  apiRequests : nat;
  labelMapping : gmap string string;
  reverseLabelMapping : gmap string string;
  contacts : list pyval;
  dataAlreadyFetched : bool;
  createdContacts : list pyval;
  log : list (level * string);
  remote : R
}.

Definition with_remote (r : R) (g : Google) : Google :=
  {| labelFilter := labelFilter g; database := database g;
     apiRequests := apiRequests g; labelMapping := labelMapping g;
     reverseLabelMapping := reverseLabelMapping g; contacts := contacts g;
     dataAlreadyFetched := dataAlreadyFetched g;
     createdContacts := createdContacts g; log := log g; remote := r |}.

(** [self.apiRequests += 1] *)
Definition count_request (g : Google) : Google :=
  {| labelFilter := labelFilter g; database := database g;
     apiRequests := S (apiRequests g); labelMapping := labelMapping g;
     reverseLabelMapping := reverseLabelMapping g; contacts := contacts g;
     dataAlreadyFetched := dataAlreadyFetched g;
     createdContacts := createdContacts g; log := log g; remote := remote g |}.

(** [self.contacts = cs] *)
Definition with_contacts (cs : list pyval) (g : Google) : Google :=
  {| labelFilter := labelFilter g; database := database g;
     apiRequests := apiRequests g; labelMapping := labelMapping g;
     reverseLabelMapping := reverseLabelMapping g; contacts := cs;
     dataAlreadyFetched := dataAlreadyFetched g;
     createdContacts := createdContacts g; log := log g; remote := remote g |}.

(** [self.log.info(msg)], [self.log.warning(msg)], [self.log.error(msg)] *)
Definition logged (lvl : level) (msg : string) (g : Google) : Google :=
  {| labelFilter := labelFilter g; database := database g;
     apiRequests := apiRequests g; labelMapping := labelMapping g;
     reverseLabelMapping := reverseLabelMapping g; contacts := contacts g;
     dataAlreadyFetched := dataAlreadyFetched g;
     createdContacts := createdContacts g;
     log := log g ++ [(lvl, msg)]; remote := remote g |}.

Definition with_database (db : option Database) (g : Google) : Google :=
  {| labelFilter := labelFilter g; database := db;
     apiRequests := apiRequests g; labelMapping := labelMapping g;
     reverseLabelMapping := reverseLabelMapping g; contacts := contacts g;
     dataAlreadyFetched := dataAlreadyFetched g;
     createdContacts := createdContacts g; log := log g; remote := remote g |}.

(** [self.dataAlreadyFetched = True] *)
Definition mark_fetched (g : Google) : Google :=
  {| labelFilter := labelFilter g; database := database g;
     apiRequests := apiRequests g; labelMapping := labelMapping g;
     reverseLabelMapping := reverseLabelMapping g; contacts := contacts g;
     dataAlreadyFetched := true;
     createdContacts := createdContacts g; log := log g; remote := remote g |}.

(** [self.createdContacts[id] = True]: an id that equals a key of the dict
    is not entered a second time. *)
Definition mark_created (id : pyval) (g : Google) : Google :=
  {| labelFilter := labelFilter g; database := database g;
     apiRequests := apiRequests g; labelMapping := labelMapping g;
     reverseLabelMapping := reverseLabelMapping g; contacts := contacts g;
     dataAlreadyFetched := dataAlreadyFetched g;
     createdContacts :=
       (if existsb (fun key => py_eq key id) (createdContacts g)
        then createdContacts g else createdContacts g ++ [id]);
     log := log g;
     remote := remote g |}.

(** *** [getLabelName] *)

(** [l[1]] on a list. *)
Definition second (l : list string) : outcome string :=
  match l with
  | _ :: x :: _ => Ok x
  | _ => Raise IndexError
  end.

(** [Google.getLabelName]: the split comes first, then the lookup. *)
Definition getLabelName (g : Google) (labelString : string) : outcome string :=
  let* labelId := second (split "/" labelString) in
  Ok (default labelId (reverseLabelMapping g !! labelString)).

(** *** [getContact] *)

(** [l[0]] on a list. *)
Definition first (l : list pyval) : outcome pyval :=
  match l with
  | x :: _ => Ok x
  | [] => Raise IndexError
  end.

(** [[c for c in self.contacts if str(c['resourceName']) == str(id)]],
    guarded by [if self.contacts]. *)
Definition cached (g : Google) (id : string) : outcome (list pyval) :=
  if nonempty (contacts g) then
    filterM (fun c => let* rn := getitem c "resourceName" in
                      Ok (String.eqb (py_str rn) id))
            (contacts g)
  else Ok [].

(** The GET parameters of [getContact]. *)
Definition get_parameters (id : string) : pydict :=
  [("resourceName", PStr id); ("personFields", PStr syncFields)].

(** The body of the [try] in [getContact]. *)
Definition getContact_body (g : Google) (id : string)
  : Google * outcome pyval :=
  match cached g id with
  | Raise e => (g, Raise e)
  | Ok (c :: _) => (g, Ok c)
  | Ok [] =>
      let parameters := get_parameters id in
      let (response, r') := people_get svc parameters (remote g) in
      let g := with_remote r' g in
      match response with
      | Raise e => (g, Raise e)
      | Ok result =>
          let g := count_request g in
          match (let* kept := filterContactsByLabel (labelFilter g) [result] in
                 first kept) with
          | Raise e => (g, Raise e)
          | Ok googleContact =>
              (with_contacts (contacts g ++ [googleContact]) g,
               Ok googleContact)
          end
      end
  end.

Definition fetch_failed (id reason : string) : string :=
  "Failed to fetch Google contact '" +:+ id +:+ "': " +:+ reason.

Definition not_allowed (id : string) : string :=
  "Contact processing of '" +:+ id +:+ "' not allowed by label filter".

(** [Google.getContact]: the body and its three handlers. *)
Definition getContact (g : Google) (id : string) : Google * outcome pyval :=
  match getContact_body g id with
  | (g, Ok c) => (g, Ok c)
  | (g, Raise (HttpError reason)) =>
      let msg := fetch_failed id reason in
      (logged Error msg g, Raise (PyException msg))
  | (g, Raise IndexError) =>
      let msg := not_allowed id in
      (logged Info msg g, Raise (PyException msg))
  | (g, Raise e) =>
      let msg := fetch_failed id (exn_str e) in
      (logged Error msg g, Raise (PyException msg))
  end.

(** *** [__fetchContacts] and [getContacts] *)

(** The [while True] loop of [__fetchContacts], one iteration per unit of
    [fuel].  [parameters] is the caller's dict, which the loop updates in
    place, so it is returned; [contacts] is the local accumulator.  The
    loop leaves with the last [result]; [None] is the walk cut short by the
    fuel. *)
Fixpoint fetch_loop (fuel : nat) (g : Google) (parameters : pydict)
    (contacts : list pyval) : Google * pydict * option (outcome pyval) :=
  match fuel with
  | O => (g, parameters, None)
  | S fuel =>
      let (response, r') := connections_list svc parameters (remote g) in
      let g := with_remote r' g in
      match response with
      | Raise e => (g, parameters, Some (Raise e))
      | Ok result =>
          let g := count_request g in
          match get result "nextPageToken" (PBool false) with
          | Raise e => (g, parameters, Some (Raise e))
          | Ok nextPageToken =>
              match page_contacts result with
              | Raise e => (g, parameters, Some (Raise e))
              | Ok page =>
                  let contacts := contacts ++ page in
                  if truthy nextPageToken then
                    fetch_loop fuel g
                      (dict_set "pageToken" nextPageToken parameters) contacts
                  else
                    match filterContactsByLabel (labelFilter g) contacts with
                    | Raise e => (g, parameters, Some (Raise e))
                    | Ok kept =>
                        (with_contacts kept g, parameters, Some (Ok result))
                    end
              end
          end
      end
  end.

(** [Google.__fetchContacts]: the loop, then the sync token of the last
    page goes to the database when both are there. *)
Definition fetchContacts (fuel : nat) (g : Google) (parameters : pydict)
  : Google * pydict * option (outcome unit) :=
  match fetch_loop fuel g parameters [] with
  | (g, parameters, None) => (g, parameters, None)
  | (g, parameters, Some (Raise e)) => (g, parameters, Some (Raise e))
  | (g, parameters, Some (Ok result)) =>
      match get result "nextSyncToken" PNone with
      | Raise e => (g, parameters, Some (Raise e))
      | Ok nextSyncToken =>
          if truthy nextSyncToken then
            match database g with
            | Some db =>
                (with_database
                   (Some (updateGoogleNextSyncToken nextSyncToken db)) g,
                 parameters, Some (Ok tt))
            | None => (g, parameters, Some (Ok tt))
            end
          else (g, parameters, Some (Ok tt))
      end
  end.

Definition base_parameters : pydict :=
  [("resourceName", PStr "people/me");
   ("pageSize", PInt 1000);
   ("personFields", PStr syncFields);
   ("requestSyncToken", PBool true)].

Definition fetching_msg : string := "Fetching Google contacts...".
Definition finished_msg : string := "Finished fetching Google contacts".
Definition token_expired_msg : string :=
  "Sync token expired or invalid. Fetching again without token (full sync)...".

(** The end of [getContacts] once a walk went through. *)
Definition getContacts_finish (g : Google) : Google * option (outcome (list pyval)) :=
  let g := mark_fetched (logged Info finished_msg g) in
  (g, Some (Ok (contacts g))).

(** [Google.getContacts].  Each of the two walks has its own [fuel]. *)
Definition getContacts (fuel : nat) (g : Google) (refetchData : bool)
    (params : pydict) : Google * option (outcome (list pyval)) :=
  let parameters := dict_merge base_parameters params in
  if dataAlreadyFetched g && negb refetchData then (g, Some (Ok (contacts g)))
  else
    let g := logged Info fetching_msg g in
    match fetchContacts fuel g parameters with
    | (g, _, None) => (g, None)
    | (g, _, Some (Ok _)) => getContacts_finish g
    | (g, parameters, Some (Raise (HttpError reason))) =>
        if contains "Sync token" reason then
          let g := logged Warning token_expired_msg g in
          match dict_pop "syncToken" parameters with
          | Raise e => (g, Some (Raise e))
          | Ok (_, parameters) =>
              match fetchContacts fuel g parameters with
              | (g, _, None) => (g, None)
              | (g, _, Some (Ok _)) => getContacts_finish g
              | (g, _, Some (Raise e)) => (g, Some (Raise e))
              end
          end
        else (g, Some (Raise (PyException reason)))
    | (g, _, Some (Raise e)) => (g, Some (Raise e))
    end.

(** *** [createContact] and [updateContact] *)

(** [data['names'][0]] *)
Definition name_entry (data : pyval) : outcome pyval :=
  let* names := getitem data "names" in
  getitem0 names.

(** [result.get('names', [{}])[0].get('displayName', 'error')] *)
Definition display_name (result : pyval) : outcome pyval :=
  let* names := get result "names" (PList [PDict []]) in
  let* name := getitem0 names in
  get name "displayName" (PStr "error").

Definition create_failed (name : pyval) (reason : string) : string :=
  "'" +:+ py_str name +:+ "':Failed to create Google contact. Reason: "
  +:+ reason.

Definition update_failed (name : pyval) (reason : string) : string :=
  "'" +:+ py_str name +:+ "':Failed to update Google contact. Reason: "
  +:+ reason.

Definition created_msg (name id : pyval) : string :=
  "'" +:+ py_str name +:+ "': Contact with id '" +:+ py_str id
  +:+ "' created successfully".

Definition updated_msg (name id : pyval) : string :=
  "'" +:+ py_str name +:+ "': Contact with id '" +:+ py_str id
  +:+ "' updated successfully".

(** [Google.createContact].  A bare [return] gives [PNone]. *)
Definition createContact (g : Google) (data : pyval) : Google * outcome pyval :=
  let (response, r') := people_createContact svc syncFields data (remote g) in
  let g := with_remote r' g in
  match response with
  | Raise (HttpError reason) =>
      match name_entry data with
      | Raise e => (g, Raise e)
      | Ok name => (logged Warning (create_failed name reason) g, Ok PNone)
      end
  | Raise e => (g, Raise e)
  | Ok result =>
      let g := count_request g in
      match get result "resourceName" (PStr "-") with
      | Raise e => (g, Raise e)
      | Ok id =>
          match display_name result with
          | Raise e => (g, Raise e)
          | Ok name =>
              if hashable id then
                let g := mark_created id g in
                let g := with_contacts (contacts g ++ [result]) g in
                (logged Info (created_msg name id) g, Ok result)
              else (g, Raise TypeError)
          end
      end
  end.

(** [Google.updateContact]. *)
Definition updateContact (g : Google) (data : pyval) : Google * outcome pyval :=
  match getitem data "resourceName" with
  | Raise e => (g, Raise e)
  | Ok resourceName =>
      let (response, r') :=
        people_updateContact svc resourceName updateFields data (remote g) in
      let g := with_remote r' g in
      match response with
      | Raise (HttpError reason) =>
          match name_entry data with
          | Raise e => (g, Raise e)
          | Ok name => (logged Warning (update_failed name reason) g, Ok PNone)
          end
      | Raise e => (g, Raise e)
      | Ok result =>
          let g := count_request g in
          match get result "resourceName" (PStr "-") with
          | Raise e => (g, Raise e)
          | Ok id =>
              match display_name result with
              | Raise e => (g, Raise e)
              | Ok name =>
                  let g := logged Info "Contact has not been saved internally!" g in
                  (logged Info (updated_msg name id) g, Ok result)
              end
          end
      end
  end.

End Adapter.

Arguments Google R : clear implicits.

(** ** The payload builder [GoogleContactUploadForm] *)

Module Form.

Definition names_group (firstName lastName middleName : string) : pyval :=
  PList [PDict [("familyName", PStr lastName);
                ("givenName", PStr firstName);
                ("middleName", PStr middleName)]].

Definition birthdays_group (birthdate : pydict) : pyval :=
  PList [PDict [("date",
    PDict [("year", default (PInt 0) (assoc "year" birthdate));
           ("month", default (PInt 0) (assoc "month" birthdate));
           ("day", default (PInt 0) (assoc "day" birthdate))])]].

Definition organizations_group (career : pydict) : pyval :=
  PList [PDict [("name", default (PStr "") (assoc "company" career));
                ("title", default (PStr "") (assoc "job" career))]].

(** [address["country"].get(key, None) if address["country"] else None] *)
Definition country_field (key : string) (address : pydict) : outcome pyval :=
  let* test := getitem (PDict address) "country" in
  if truthy test then
    let* country := getitem (PDict address) "country" in
    get country key PNone
  else Ok PNone.

(** One element of the [addresses] comprehension. *)
Definition address_entry (address : pydict) : outcome pyval :=
  let type := default (PStr "") (assoc "name" address) in
  let streetAddress := default (PStr "") (assoc "street" address) in
  let city := default (PStr "") (assoc "city" address) in
  let region := default (PStr "") (assoc "province" address) in
  let postalCode := default (PStr "") (assoc "postal_code" address) in
  let* country := country_field "name" address in
  let* countryCode := country_field "iso" address in
  Ok (PDict [("type", type);
             ("streetAddress", streetAddress);
             ("city", city);
             ("region", region);
             ("postalCode", postalCode);
             ("country", country);
             ("countryCode", countryCode)]).

Definition tagged_other (value : string) : pyval :=
  PDict [("value", PStr value); ("type", PStr "other")].

Definition membership (labelId : string) : pyval :=
  PDict [("contactGroupMembership",
          PDict [("contactGroupResourceName", PStr labelId)])].

(** [GoogleContactUploadForm.__init__] followed by [getData]: the dict
    [self.data], or the exception that ends the construction. *)
Definition GoogleContactUploadForm
    (firstName lastName middleName : string) (birthdate : pydict)
    (phoneNumbers : list string) (career : pydict)
    (emailAdresses labelIds : list string) (addresses : list pydict)
  : outcome pydict :=
  let data := [("names", names_group firstName lastName middleName)] in
  let data :=
    if nonempty birthdate
    then dict_set "birthdays" (birthdays_group birthdate) data else data in
  let data :=
    if nonempty career
    then dict_set "organizations" (organizations_group career) data
    else data in
  let* data :=
    if nonempty addresses
    then let* entries := mapM address_entry addresses in
         Ok (dict_set "addresses" (PList entries) data)
    else Ok data in
  let data :=
    if nonempty phoneNumbers
    then dict_set "phoneNumbers" (PList (List.map tagged_other phoneNumbers)) data
    else data in
  let data :=
    if nonempty emailAdresses
    then dict_set "emailAddresses" (PList (List.map tagged_other emailAdresses)) data
    else data in
  let data :=
    if nonempty labelIds
    then dict_set "memberships" (PList (List.map membership labelIds)) data
    else data in
  Ok data.

(** The top-level keys of a payload, in order. *)
Definition keys (data : pydict) : list string := List.map fst data.

(** The optional groups a call has to produce, in the order they are
    added. *)
Definition expected_groups (birthdate : pydict) (phoneNumbers : list string)
    (career : pydict) (emailAdresses labelIds : list string)
    (addresses : list pydict) : list string :=
  (if nonempty birthdate then ["birthdays"] else [])
  ++ (if nonempty career then ["organizations"] else [])
  ++ (if nonempty addresses then ["addresses"] else [])
  ++ (if nonempty phoneNumbers then ["phoneNumbers"] else [])
  ++ (if nonempty emailAdresses then ["emailAddresses"] else [])
  ++ (if nonempty labelIds then ["memberships"] else []).

(** An address the builder accepts: it has a [country] entry that is
    either false in a condition or a dict. *)
Definition country_supplied (address : pydict) : Prop :=
  exists c, assoc "country" address = Some c /\
            (truthy c = false \/ exists d, c = PDict d).

End Form.

(** ** Labels and the rest of the adapter *)

(** A contact group as [contactGroups().list()] lists it: the three
    entries the adapter reads, strings in the API's ContactGroup
    resource. *)
Module ContactGroup.
Record t : Type := {
  name : string;
  resourceName : string;
  groupType : string
}.
End ContactGroup.

(** The contact-group requests of the remote People API, [....execute()]
    included, in the manner of [Service]. *)
Record GroupService (R : Type) : Type := {
  (** [contactGroups().list()]: the [contactGroups] entry of the response,
      no group when the response has no such entry *)
  contactGroups_list : R -> outcome (list ContactGroup.t) * R;
  (** [contactGroups().create(body=..)] for the group name in the body: the
      [resourceName] entry of the response, [None] when it has none *)
  contactGroups_create : string -> R -> outcome (option string) * R;
  (** [contactGroups().delete(resourceName=..)]: the response *)
  contactGroups_delete : string -> R -> outcome pyval * R
}.
Arguments contactGroups_list {R} _ _.
Arguments contactGroups_create {R} _ _ _.
Arguments contactGroups_delete {R} _ _ _.

(** [d[k] = v] on a dict from strings to strings, kept in insertion
    order. *)
Fixpoint set_item (k v : string) (d : list (string * string))
  : list (string * string) :=
  match d with
  | [] => [(k, v)]
  | (k', v') :: r =>
      if String.eqb k k' then (k', v) :: r else (k', v') :: set_item k v r
  end.

(** The condition of the comprehension in [__getLabelMapping]. *)
Definition allowed_group (group : ContactGroup.t) : bool :=
  String.eqb (ContactGroup.groupType group) "USER_CONTACT_GROUP"
  || existsb (String.eqb (ContactGroup.name group)) ["myContacts"; "starred"].

(** The dict [{group['name']: group['resourceName'] for group in groups
    if ...}], as its items in insertion order. *)
Definition label_items (groups : list ContactGroup.t)
  : list (string * string) :=
  fold_left (fun d group => set_item (ContactGroup.name group)
                              (ContactGroup.resourceName group) d)
            (List.filter allowed_group groups) [].

(** [{id: name for name, id in items}] *)
Definition reverse_items (items : list (string * string))
  : gmap string string :=
  fold_left (fun m item => <[snd item := fst item]> m) items ∅.

(** [l.remove(x)]: the list without its first element equal to [x],
    [None] for the ValueError when there is none. *)
Fixpoint list_remove (x : pyval) (l : list pyval) : option (list pyval) :=
  match l with
  | [] => None
  | y :: r =>
      if py_eq y x then Some r
      else match list_remove x r with
           | Some r' => Some (y :: r')
           | None => None
           end
  end.

Section Labels.

Context {R : Type}.
Variable gsvc : GroupService R.
Variable py_str : pyval -> string.

(** [self.labelMapping = m], also for the in-place [update]. *)
Definition with_labelMapping (m : gmap string string) (g : Google R)
  : Google R :=
  {| labelFilter := labelFilter g; database := database g;
     apiRequests := apiRequests g; labelMapping := m;
     reverseLabelMapping := reverseLabelMapping g; contacts := contacts g;
     dataAlreadyFetched := dataAlreadyFetched g;
     createdContacts := createdContacts g; log := log g; remote := remote g |}.

(** [Google.__getLabelMapping]: the mapping as its items in insertion
    order. *)
Definition getLabelMapping (g : Google R)
  : Google R * outcome (list (string * string)) :=
  let (response, r') := contactGroups_list gsvc (remote g) in
  let g := with_remote r' g in
  match response with
  | Raise e => (g, Raise e)
  | Ok groups => (count_request g, Ok (label_items groups))
  end.

(** [Google.__init__] on an authorized service handle whose remote side
    is in state [r]; [labelFilter] is [None] for the default.  The
    construction raises what the listing of the groups raises. *)
Definition init (r : R) (databaseHandler : option Database)
    (labelFilter : option LabelFilter) : outcome (Google R) :=
  let lf := default {| include := []; exclude := [] |} labelFilter in
  let g :=
    {| labelFilter := lf; database := databaseHandler; apiRequests := 0;
       labelMapping := ∅; reverseLabelMapping := ∅; contacts := [];
       dataAlreadyFetched := false; createdContacts := []; log := [];
       remote := r |} in
  match getLabelMapping g with
  | (_, Raise e) => Raise e
  | (g, Ok items) =>
      Ok {| labelFilter := lf; database := database g;
            apiRequests := apiRequests g;
            labelMapping := list_to_map items;
            reverseLabelMapping := reverse_items items;
            contacts := []; dataAlreadyFetched := false;
            createdContacts := []; log := log g; remote := remote g |}
  end.

(** [Google.createLabel]. *)
Definition createLabel (g : Google R) (labelName : string)
  : Google R * outcome string :=
  match labelMapping g !! labelName with
  | Some id => (g, Ok id)
  | None =>
      let (response, r') := contactGroups_create gsvc labelName (remote g) in
      let g := with_remote r' g in
      match response with
      | Raise e => (g, Raise e)
      | Ok resourceName =>
          let g := count_request g in
          let groupId := default "contactGroups/myContacts" resourceName in
          (with_labelMapping (<[labelName := groupId]> (labelMapping g)) g,
           Ok groupId)
      end
  end.


Definition delete_failed (reason : string) : string :=
  "Failed to delete Google contact group. Reason: " +:+ reason.

Definition delete_answered (response : pyval) : string :=
  "Non-empty response received, please check carefully: "
  +:+ py_str response.

(** [Google.deleteLabel]. *)
Definition deleteLabel (g : Google R) (groupId : string)
  : Google R * outcome unit :=
  let (response, r') := contactGroups_delete gsvc groupId (remote g) in
  let g := with_remote r' g in
  match response with
  | Raise (HttpError reason) =>
      (logged Warning (delete_failed reason) g, Ok tt)
  | Raise e => (g, Raise e)
  | Ok response =>
      let g := count_request g in
      if truthy response
      then (logged Warning (delete_answered response) g, Ok tt)
      else (g, Ok tt)
  end.

(** [Google.removeContactFromList]; [None] is the ValueError of
    [list.remove], raised before anything has changed. *)
Definition removeContactFromList (g : Google R) (googleContact : pyval)
  : option (Google R) :=
  match list_remove googleContact (contacts g) with
  | Some rest => Some (with_contacts rest g)
  | None => None
  end.

End Labels.

(** ** Vocabulary of the properties *)

(** The label ids a string is cut into: [has_char c s] tells whether [c]
    occurs in [s], [upto c s] is [s] up to its first [c]. *)
Fixpoint has_char (c : ascii) (s : string) : bool :=
  match s with
  | EmptyString => false
  | String a r => Ascii.eqb a c || has_char c r
  end.

Fixpoint upto (c : ascii) (s : string) : string :=
  match s with
  | EmptyString => EmptyString
  | String a r => if Ascii.eqb a c then EmptyString else String a (upto c r)
  end.

(** A contact carries a label of [labels]: one of its memberships has a
    group id that is a string of [labels]. *)
Definition carries (labels : list string) (contact : pyval) : Prop :=
  exists m g, In m (memberships_of contact) /\
              group_id m = Ok (PStr g) /\ In g labels.

(** The adapter after [n] more counted requests that left the remote side
    in [r]; nothing else has changed. *)
Definition served {R : Type} (n : nat) (r : R) (g : Google R) : Google R :=
  {| labelFilter := labelFilter g; database := database g;
     apiRequests := n + apiRequests g; labelMapping := labelMapping g;
     reverseLabelMapping := reverseLabelMapping g; contacts := contacts g;
     dataAlreadyFetched := dataAlreadyFetched g;
     createdContacts := createdContacts g; log := log g; remote := r |}.

(** The groups of a listing that the label mapping takes and that carry a
    given name, in the order of the listing. *)
Definition named (n : string) (groups : list ContactGroup.t)
  : list ContactGroup.t :=
  List.filter (fun group => allowed_group group
                            && String.eqb (ContactGroup.name group) n) groups.

Fixpoint each {A} (P : A -> Prop) (l : list A) : Prop :=
  match l with
  | [] => True
  | x :: l => P x /\ each P l
  end.

Fixpoint each_value (P : pyval -> Prop) (d : pydict) : Prop :=
  match d with
  | [] => True
  | (_, v) :: d => P v /\ each_value P d
  end.

(** A JSON value as the API client parses one: the keys of every dict in
    it are distinct. *)
Fixpoint distinct_keys (v : pyval) : Prop :=
  match v with
  | PList xs => each distinct_keys xs
  | PDict d => List.NoDup (List.map fst d) /\ each_value distinct_keys d
  | _ => True
  end.

(** The cached contacts have a [resourceName] entry. *)
Definition has_resourceName (c : pyval) : Prop :=
  exists rn, getitem c "resourceName" = Ok rn.

(** The condition of the cache lookup in [getContact]. *)
Definition matches (py_str : pyval -> string) (id : string) (c : pyval)
  : outcome bool :=
  let* rn := getitem c "resourceName" in Ok (String.eqb (py_str rn) id).

Section Walk.

Context {R : Type}.
Variable svc : Service R.

(** [walk parameters r pages r']: asked from the remote state [r] with
    [parameters], and then with the [pageToken] of each answer, the remote
    side answers with [pages] in this order and ends in [r']; every page
    but the last carries a [nextPageToken] that counts as true, the last
    carries none that does. *)
Inductive walk : pydict -> R -> list pyval -> R -> Prop :=
| walk_last parameters r page r' token :
    connections_list svc parameters r = (Ok page, r') ->
    get page "nextPageToken" (PBool false) = Ok token ->
    truthy token = false ->
    walk parameters r [page] r'
| walk_next parameters r page r1 token pages r' :
    connections_list svc parameters r = (Ok page, r1) ->
    get page "nextPageToken" (PBool false) = Ok token ->
    truthy token = true ->
    walk (dict_set "pageToken" token parameters) r1 pages r' ->
    walk parameters r (page :: pages) r'.

End Walk.

(** ** Fixtures for the examples *)

Module Sample.

(** Python's [repr] and [str] on JSON values whose strings need no
    escaping. *)
Fixpoint join (sep : string) (l : list string) : string :=
  match l with
  | [] => ""
  | [x] => x
  | x :: r => x +:+ sep +:+ join sep r
  end.

Fixpoint repr (v : pyval) : string :=
  match v with
  | PNone => "None"
  | PBool true => "True"
  | PBool false => "False"
  | PInt n => pretty n
  | PStr s => "'" +:+ s +:+ "'"
  | PList xs => "[" +:+ join ", " (List.map repr xs) +:+ "]"
  | PDict kvs =>
      "{" +:+ join ", " (List.map (fun kv => "'" +:+ fst kv +:+ "': "
                                             +:+ repr (snd kv)) kvs)
      +:+ "}"
  end.

Definition str (v : pyval) : string :=
  match v with
  | PStr s => s
  | _ => repr v
  end.

(** [str(e)] on the exceptions of the model. *)
Definition exn_text (e : exn) : string :=
  match e with
  | KeyError k => repr k
  | IndexError => "list index out of range"
  | TypeError => "unsupported operand"
  | AttributeError => "object has no attribute 'get'"
  | HttpError reason => reason
  | PyException msg => msg
  | OtherError what => what
  end.

(** A remote side that records the requests it receives, oldest first, and
    answers the [n]-th of them (counted from 0) by the given functions of
    [n] and of the request. *)
Definition recording
    (on_get on_list : nat -> pydict -> outcome pyval)
    (on_create on_update : nat -> pyval -> outcome pyval)
  : Service (list pyval) :=
  {| people_get := fun p h => (on_get (length h) p, h ++ [PDict p]);
     connections_list := fun p h => (on_list (length h) p, h ++ [PDict p]);
     people_createContact := fun _ body h =>
       (on_create (length h) body, h ++ [body]);
     people_updateContact := fun _ _ body h =>
       (on_update (length h) body, h ++ [body]) |}.

Definition unused {A} (_ : nat) (_ : A) : outcome pyval :=
  Raise (OtherError "not expected").

(** An adapter after its construction (one request made, for the label
    mapping), with a given filter and cache. *)
Definition adapter (lf : LabelFilter) (cache : list pyval)
  : Google (list pyval) :=
  {| labelFilter := lf; database := None; apiRequests := 1;
     labelMapping := ∅; reverseLabelMapping := ∅; contacts := cache;
     dataAlreadyFetched := false; createdContacts := []; log := [];
     remote := [] |}.

(** The same with a reverse label mapping. *)
Definition labelled (names : gmap string string) : Google (list pyval) :=
  {| labelFilter := {| include := []; exclude := [] |}; database := None;
     apiRequests := 1; labelMapping := ∅; reverseLabelMapping := names;
     contacts := []; dataAlreadyFetched := false; createdContacts := [];
     log := []; remote := [] |}.

Definition no_filter : LabelFilter := {| include := []; exclude := [] |}.

Definition member_of (group : string) : pyval :=
  PDict [("contactGroupMembership", PDict [("contactGroupId", PStr group)])].

(** A contact with a resource name and memberships in the given groups. *)
Definition person (name : string) (groups : list string) : pyval :=
  PDict [("resourceName", PStr name);
         ("memberships", PList (List.map member_of groups))].

Definition friends : string := "contactGroups/friends".
Definition work : string := "contactGroups/work".
Definition spam : string := "contactGroups/spam".

Definition ann : pyval := person "people/c1" [friends].
Definition bob : pyval := person "people/c2" [friends; spam].
Definition cid : pyval := person "people/c3" [work].
(** A contact without a [memberships] entry. *)
Definition dan : pyval := PDict [("resourceName", PStr "people/c4")].

Definition friends_not_spam : LabelFilter :=
  {| include := [friends]; exclude := [spam] |}.
Definition not_spam : LabelFilter :=
  {| include := []; exclude := [spam] |}.

(** The paginated listing of two pages: the first request is answered
    with [ann] and the page token [t1], the second with [bob]. *)
Definition page1 : pyval :=
  PDict [("connections", PList [ann]); ("nextPageToken", PStr "t1")].
Definition page2 : pyval :=
  PDict [("connections", PList [bob]); ("nextSyncToken", PStr "s2")].

Definition two_pages : Service (list pyval) :=
  recording unused
    (fun n _ => match n with
                | 0 => Ok page1
                | 1 => Ok page2
                | _ => Raise (OtherError "not expected")
                end)
    unused unused.

(** A remote side whose sync token runs out after the first request: from
    then on a request that carries a [syncToken] is refused; a request
    without one is answered with the page its [pageToken] names, the first
    page when it has none. *)
Definition expired_reason : string :=
  "Sync token is expired. Clear local cache and retry call without the sync token.".

Definition expiring : Service (list pyval) :=
  recording unused
    (fun n parameters =>
       match n, assoc "syncToken" parameters with
       | 0, _ => Ok page1
       | _, Some _ => Raise (HttpError expired_reason)
       | _, None =>
           match assoc "pageToken" parameters with
           | None => Ok page1
           | Some (PStr "t1") => Ok page2
           | Some _ => Raise (HttpError "Invalid page token")
           end
       end)
    unused unused.

(** A remote side that refuses every create and update request. *)
Definition refusing : Service (list pyval) :=
  recording unused unused
    (fun _ _ => Raise (HttpError "Quota exceeded"))
    (fun _ _ => Raise (HttpError "Quota exceeded")).

(** A remote side that answers a get, create or update request with a
    given contact. *)
Definition answering (contact : pyval) : Service (list pyval) :=
  recording (fun _ _ => Ok contact) unused
    (fun _ _ => Ok contact) (fun _ _ => Ok contact).

End Sample.

(** Fixtures for the label operations. *)
Module SampleGroups.

(** A remote side for the group requests that records the requests it
    receives and answers the [n]-th of them by the given functions. *)
Definition recording
    (on_list : nat -> outcome (list ContactGroup.t))
    (on_create : nat -> string -> outcome (option string))
    (on_delete : nat -> string -> outcome pyval)
  : GroupService (list pyval) :=
  {| contactGroups_list := fun h => (on_list (length h), h ++ [PStr "list"]);
     contactGroups_create := fun name h =>
       (on_create (length h) name, h ++ [PStr name]);
     contactGroups_delete := fun id h =>
       (on_delete (length h) id, h ++ [PStr id]) |}.

Definition user_group (name id : string) : ContactGroup.t :=
  {| ContactGroup.name := name; ContactGroup.resourceName := id;
     ContactGroup.groupType := "USER_CONTACT_GROUP" |}.

Definition system_group (name : string) : ContactGroup.t :=
  {| ContactGroup.name := name;
     ContactGroup.resourceName := "contactGroups/" +:+ name;
     ContactGroup.groupType := "SYSTEM_CONTACT_GROUP" |}.

(** An account with two user groups and three system groups. *)
Definition groups : list ContactGroup.t :=
  [system_group "myContacts"; system_group "family";
   user_group "Friends" "contactGroups/1a2b";
   system_group "starred";
   user_group "Work" "contactGroups/3c4d"].

(** A remote side that lists [groups], names a created group after its
    name, and answers a delete request with an empty response. *)
Definition account : GroupService (list pyval) :=
  recording (fun _ => Ok groups)
            (fun _ name => Ok (Some ("contactGroups/new-" +:+ name)))
            (fun _ _ => Ok (PStr "")).

(** A remote side that refuses every group request. *)
Definition refusing : GroupService (list pyval) :=
  recording (fun _ => Raise (HttpError "Quota exceeded"))
            (fun _ _ => Raise (HttpError "Quota exceeded"))
            (fun _ _ => Raise (HttpError "Quota exceeded")).

(** The adapter constructed on [account]. *)
Definition constructed : Google (list pyval) :=
  match init account [] None None with
  | Ok g => g
  | Raise _ => Sample.adapter Sample.no_filter []
  end.

End SampleGroups.

(** * Properties *)

(** ** The error monad and the comprehensions *)

Lemma bind_Ok_inv {A B} (r : outcome A) (k : A -> outcome B) (b : B) :
  bind r k = Ok b -> exists a, r = Ok a /\ k a = Ok b.
Proof.
  destruct r as [a|e]; simpl; intros H; [eauto | discriminate].
Qed.

Lemma mapM_map {A B C} (f : A -> outcome B) (t : B -> C) (l : list A) :
  mapM (fun x => let* y := f x in Ok (t y)) l
  = let* ys := mapM f l in Ok (List.map t ys).
Proof.
  induction l as [|x l IH]; simpl; [reflexivity|].
  destruct (f x) as [y|e]; simpl; [|reflexivity].
  rewrite IH. destruct (mapM f l); reflexivity.
Qed.

Lemma mapM_Forall2 {A B} (f : A -> outcome B) (l : list A) (ys : list B) :
  mapM f l = Ok ys <-> Forall2 (fun x y => f x = Ok y) l ys.
Proof.
  revert ys. induction l as [|x l IH]; intros ys; simpl.
  - split; intros H; [injection H as <-; constructor | inversion H; reflexivity].
  - split.
    + intros H. apply bind_Ok_inv in H as (y & Hy & H).
      apply bind_Ok_inv in H as (ys' & Hys & H). injection H as <-.
      constructor; [exact Hy | apply IH, Hys].
    + intros H. inversion H as [|? y ? ys' Hy Hys]; subst.
      rewrite Hy. simpl. apply IH in Hys. rewrite Hys. reflexivity.
Qed.

Lemma filterM_pure {A} (p : A -> outcome bool) (q : A -> bool) (l : list A) :
  Forall (fun x => p x = Ok (q x)) l -> filterM p l = Ok (List.filter q l).
Proof.
  induction 1 as [|x l Hx _ IH]; simpl; [reflexivity|].
  rewrite Hx, IH. simpl. destruct (q x); reflexivity.
Qed.

Lemma filterM_Ok_inv {A} (p : A -> outcome bool) (l kept : list A) :
  filterM p l = Ok kept -> Forall (fun x => exists b, p x = Ok b) l.
Proof.
  revert kept. induction l as [|x l IH]; intros kept; simpl; [constructor|].
  intros H. apply bind_Ok_inv in H as (b & Hb & H).
  apply bind_Ok_inv in H as (ys & Hys & _).
  constructor; [eauto | eapply IH, Hys].
Qed.

(** The first element whose condition raises ends the comprehension with
    its exception. *)
Lemma filterM_first_raise {A} (p : A -> outcome bool) (pre post : list A)
    (x : A) (e : exn) :
  Forall (fun y => exists b, p y = Ok b) pre ->
  p x = Raise e ->
  filterM p (pre ++ x :: post) = Raise e.
Proof.
  intros Hpre Hx. induction Hpre as [|y pre [b Hy] _ IH]; simpl.
  - rewrite Hx. reflexivity.
  - rewrite Hy, IH. reflexivity.
Qed.

Lemma filterM_In_raise {A} (p : A -> outcome bool) (l : list A) (x : A)
    (e : exn) :
  In x l -> p x = Raise e -> exists e', filterM p l = Raise e'.
Proof.
  intros Hin Hx. induction l as [|y l IH]; [destruct Hin|]. simpl.
  destruct (p y) as [b|e'] eqn:Hy; simpl; [|eauto].
  destruct Hin as [->|Hin]; [congruence|].
  destruct (IH Hin) as [e' ->]. eauto.
Qed.

(** ** The label filter *)

Lemma any_map_existsb {A} (t : A -> bool) (l : list A) :
  any (List.map t l) = existsb t l.
Proof. induction l as [|x l IH]; simpl; [reflexivity|]. now rewrite <- IH. Qed.

Lemma all_map_negb {A} (t : A -> bool) (l : list A) :
  all (List.map (fun x => negb (t x)) l) = negb (existsb t l).
Proof.
  unfold all. induction l as [|x l IH]; simpl; [reflexivity|].
  rewrite IH. now destruct (t x), (existsb t l).
Qed.

Lemma membership_in_ids (labels : list string) (ms ids : list pyval) :
  mapM group_id ms = Ok ids ->
  existsb (membership_in labels) ms = existsb (fun g => is_in g labels) ids.
Proof.
  intros H. apply mapM_Forall2 in H.
  induction H as [|m g ms ids Hg _ IH]; simpl; [reflexivity|].
  unfold membership_in at 1. rewrite Hg, IH. reflexivity.
Qed.

Lemma label_flags_well_formed (test : pyval -> bool) (c ms : pyval)
    (labels ids : list pyval) :
  getitem c "memberships" = Ok ms -> iter ms = Ok labels ->
  mapM group_id labels = Ok ids ->
  label_flags test c = Ok (List.map test ids).
Proof.
  intros Hc Hms Hids. unfold label_flags. rewrite Hc. simpl.
  rewrite Hms. simpl. rewrite mapM_map, Hids. reflexivity.
Qed.

Lemma label_flags_Ok_inv (test : pyval -> bool) (c : pyval) (bs : list bool) :
  label_flags test c = Ok bs -> well_formed c.
Proof.
  unfold label_flags. intros H.
  apply bind_Ok_inv in H as (ms & Hms & H).
  apply bind_Ok_inv in H as (labels & Hl & H).
  rewrite mapM_map in H. apply bind_Ok_inv in H as (ids & Hids & _).
  exists ms, labels, ids. auto.
Qed.

Lemma has_label_in_ids (S : list string) (c ms : pyval)
    (labels ids : list pyval) :
  getitem c "memberships" = Ok ms -> iter ms = Ok labels ->
  mapM group_id labels = Ok ids ->
  has_label_in S c = existsb (fun g => is_in g S) ids.
Proof.
  intros Hc Hms Hids. unfold has_label_in, memberships_of.
  rewrite Hc, Hms. apply membership_in_ids, Hids.
Qed.

Lemma include_condition_well_formed (lf : LabelFilter) (c : pyval) :
  well_formed c ->
  include_condition lf c
  = Ok (has_label_in (include lf) c && negb (has_label_in (exclude lf) c)).
Proof.
  intros (ms & labels & ids & Hc & Hms & Hids). unfold include_condition.
  rewrite (label_flags_well_formed _ _ _ _ _ Hc Hms Hids). simpl.
  rewrite any_map_existsb, (has_label_in_ids _ _ _ _ _ Hc Hms Hids).
  rewrite (has_label_in_ids (exclude lf) _ _ _ _ Hc Hms Hids).
  destruct (existsb _ ids); simpl; [|reflexivity].
  rewrite (label_flags_well_formed _ _ _ _ _ Hc Hms Hids). simpl.
  rewrite all_map_negb. reflexivity.
Qed.

Lemma exclude_condition_well_formed (lf : LabelFilter) (c : pyval) :
  well_formed c ->
  exclude_condition lf c = Ok (negb (has_label_in (exclude lf) c)).
Proof.
  intros (ms & labels & ids & Hc & Hms & Hids). unfold exclude_condition.
  rewrite (label_flags_well_formed _ _ _ _ _ Hc Hms Hids). simpl.
  rewrite all_map_negb, (has_label_in_ids _ _ _ _ _ Hc Hms Hids).
  reflexivity.
Qed.

Lemma include_condition_Ok_inv (lf : LabelFilter) (c : pyval) (b : bool) :
  include_condition lf c = Ok b -> well_formed c.
Proof.
  unfold include_condition. intros H.
  apply bind_Ok_inv in H as (bs & Hbs & _).
  eapply label_flags_Ok_inv, Hbs.
Qed.

Lemma exclude_condition_Ok_inv (lf : LabelFilter) (c : pyval) (b : bool) :
  exclude_condition lf c = Ok b -> well_formed c.
Proof.
  unfold exclude_condition. intros H.
  apply bind_Ok_inv in H as (bs & Hbs & _).
  eapply label_flags_Ok_inv, Hbs.
Qed.

(** A contact without a [memberships] entry makes either condition raise
    the key error. *)
Lemma conditions_without_memberships (lf : LabelFilter) (d : pydict) :
  assoc "memberships" d = None ->
  include_condition lf (PDict d) = Raise (KeyError (PStr "memberships")) /\
  exclude_condition lf (PDict d) = Raise (KeyError (PStr "memberships")).
Proof.
  intros H. unfold include_condition, exclude_condition, label_flags.
  simpl. rewrite H. simpl. auto.
Qed.

Lemma is_in_spec (v : pyval) (labels : list string) :
  is_in v labels = true <-> exists g, v = PStr g /\ In g labels.
Proof.
  destruct v; simpl; try (split; [discriminate | intros (g & Hg & _); discriminate]).
  rewrite existsb_exists. split.
  - intros (g & Hin & Heq). apply String.eqb_eq in Heq. subst. eauto.
  - intros (g & Hg & Hin). injection Hg as ->. exists g.
    split; [exact Hin | apply String.eqb_refl].
Qed.

(** [has_label_in] decides [carries]. *)
Lemma has_label_in_carries (labels : list string) (c : pyval) :
  has_label_in labels c = true <-> carries labels c.
Proof.
  unfold has_label_in, carries. rewrite existsb_exists. split.
  - intros (m & Hin & Hm). unfold membership_in in Hm.
    destruct (group_id m) as [v|] eqn:Hg; [|discriminate].
    apply is_in_spec in Hm as (g & -> & Hg'). eauto.
  - intros (m & g & Hin & Hg & Hg'). exists m. split; [exact Hin|].
    unfold membership_in. rewrite Hg. apply is_in_spec. eauto.
Qed.

Lemma filter_well_formed (lf : LabelFilter) (contactList : list pyval) :
  Forall well_formed contactList ->
  filterContactsByLabel lf contactList
  = Ok (List.filter (passes lf) contactList).
Proof.
  intros Hwf. unfold filterContactsByLabel, passes.
  destruct (include lf) as [|i I] eqn:Hi, (exclude lf) as [|x X] eqn:Hx; simpl.
  - clear Hwf. induction contactList as [|c l IH]; simpl; congruence.
  - apply filterM_pure. eapply List.Forall_impl; [|exact Hwf].
    intros c Hc. rewrite (exclude_condition_well_formed lf c Hc), Hx.
    reflexivity.
  - apply filterM_pure. eapply List.Forall_impl; [|exact Hwf].
    intros c Hc. rewrite (include_condition_well_formed lf c Hc), Hi, Hx.
    reflexivity.
  - apply filterM_pure. eapply List.Forall_impl; [|exact Hwf].
    intros c Hc. rewrite (include_condition_well_formed lf c Hc), Hi, Hx.
    reflexivity.
Qed.

Lemma filter_no_labels (lf : LabelFilter) (contactList : list pyval) :
  include lf = [] -> exclude lf = [] ->
  filterContactsByLabel lf contactList = Ok contactList.
Proof. intros Hi Hx. unfold filterContactsByLabel. now rewrite Hi, Hx. Qed.

(** The filter is the plain [List.filter] of [passes] wherever its
    comprehensions can be evaluated. *)
Lemma filter_passes (lf : LabelFilter) (contactList : list pyval) :
  (nonempty (include lf) || nonempty (exclude lf) = true ->
   Forall well_formed contactList) ->
  filterContactsByLabel lf contactList
  = Ok (List.filter (passes lf) contactList).
Proof.
  intros Hwf.
  destruct (include lf) as [|i I] eqn:Hi, (exclude lf) as [|x X] eqn:Hx;
    try (apply filter_well_formed, Hwf; reflexivity).
  rewrite (filter_no_labels lf contactList Hi Hx).
  unfold passes. rewrite Hi, Hx. f_equal.
  clear. induction contactList as [|c l IH]; simpl; congruence.
Qed.

Ltac split_conj := repeat match goal with |- _ /\ _ => split end.

Ltac well_formed_by_computation :=
  repeat match goal with
         | |- Forall _ _ => constructor
         | |- well_formed _ =>
             eexists _, _, _; repeat split; vm_compute; reflexivity
         end.

(** C1, amended: the three-case invariant of the label filter.  On a
    contact list the comprehensions can evaluate (every contact well
    formed; no such demand when both label sets are empty) the filter
    returns the contacts that pass, in the order of the input.  With a non-empty include set a
    contact passes iff it carries a label of the include set and none of
    the exclude set; with an empty include set and a non-empty exclude set
    iff it carries no label of the exclude set; with both sets empty the
    result is the input list itself. *)
Theorem label_filter_invariant (lf : LabelFilter) (contactList : list pyval) :
  (nonempty (include lf) || nonempty (exclude lf) = true ->
   Forall well_formed contactList) ->
  filterContactsByLabel lf contactList
  = Ok (List.filter (passes lf) contactList)
  /\ (include lf <> [] ->
      forall c, passes lf c = true <->
                carries (include lf) c /\ ~ carries (exclude lf) c)
  /\ (include lf = [] -> exclude lf <> [] ->
      forall c, passes lf c = true <-> ~ carries (exclude lf) c)
  /\ (include lf = [] -> exclude lf = [] ->
      filterContactsByLabel lf contactList = Ok contactList).
Proof.
  intros Hwf. split; [|split; [|split]].
  - apply filter_passes, Hwf.
  - intros Hi c. unfold passes.
    destruct (include lf) as [|i I] eqn:Ei; [congruence|]. rewrite <- Ei.
    rewrite andb_true_iff, negb_true_iff, has_label_in_carries.
    rewrite <- (has_label_in_carries (exclude lf)).
    destruct (has_label_in (exclude lf) c); intuition congruence.
  - intros Hi Hx c. unfold passes. rewrite Hi.
    destruct (exclude lf) as [|x X] eqn:Ex; [congruence|]. rewrite <- Ex.
    rewrite negb_true_iff, <- (has_label_in_carries (exclude lf)).
    destruct (has_label_in (exclude lf) c); intuition congruence.
  - apply filter_no_labels.
Qed.

(** The invariant at work: of three contacts, only the friend who is not
    in the spam group is kept. *)
Lemma label_filter_invariant_witness :
  filterContactsByLabel Sample.friends_not_spam
    [Sample.ann; Sample.bob; Sample.cid] = Ok [Sample.ann].
Proof.
  destruct (label_filter_invariant Sample.friends_not_spam
              [Sample.ann; Sample.bob; Sample.cid]) as [H _].
  - intros _. well_formed_by_computation.
  - rewrite H. reflexivity.
Defined.

(** C1 as stated fails on a contact list with a contact that has no
    [memberships] entry: [ann] carries a label of the include set and none
    of the exclude set and so is to be kept, [dan] carries none and so is
    to be dropped, yet the filter returns no list at all: it raises the key
    error. *)
Lemma label_filter_raises_on_contact_without_memberships :
  passes Sample.friends_not_spam Sample.ann = true
  /\ passes Sample.friends_not_spam Sample.dan = false
  /\ filterContactsByLabel Sample.friends_not_spam [Sample.ann; Sample.dan]
     = Raise (KeyError (PStr "memberships"))
  /\ ~ (exists kept,
          filterContactsByLabel Sample.friends_not_spam
            [Sample.ann; Sample.dan] = Ok kept).
Proof.
  split; [reflexivity|]. split; [reflexivity|]. split; [reflexivity|].
  intros [kept H]. discriminate H.
Qed.

(** C10: with a non-empty include or exclude set the filter returns a list
    exactly on the contact lists whose every contact is well formed; on a
    contact without a [memberships] entry the condition raises the key
    error for [memberships], which ends the filter (it is the filter's
    exception when the contacts before it are well formed).  With both
    sets empty the filter returns any contact list as it is. *)
Theorem filter_total_only_with_memberships
    (lf : LabelFilter) (contactList : list pyval) :
  (nonempty (include lf) || nonempty (exclude lf) = true ->
   ((exists kept, filterContactsByLabel lf contactList = Ok kept)
    <-> Forall well_formed contactList)
   /\ (forall d, In (PDict d) contactList ->
                 assoc "memberships" d = None ->
                 exists e, filterContactsByLabel lf contactList = Raise e)
   /\ (forall pre d post,
         contactList = pre ++ PDict d :: post ->
         Forall well_formed pre ->
         assoc "memberships" d = None ->
         filterContactsByLabel lf contactList
         = Raise (KeyError (PStr "memberships"))))
  /\ (include lf = [] -> exclude lf = [] ->
      filterContactsByLabel lf contactList = Ok contactList).
Proof.
  split; [|apply filter_no_labels].
  intros Hne. unfold filterContactsByLabel.
  destruct (nonempty (include lf)) eqn:Hi; simpl in Hne.
  - repeat split.
    + intros [kept Hk]. apply filterM_Ok_inv in Hk.
      eapply List.Forall_impl; [|exact Hk].
      intros c [b Hb]. eapply include_condition_Ok_inv, Hb.
    + intros Hwf. eexists. apply filterM_pure.
      eapply List.Forall_impl; [|exact Hwf].
      intros c Hc. apply include_condition_well_formed, Hc.
    + intros d Hin Hd. eapply filterM_In_raise; [exact Hin|].
      apply conditions_without_memberships, Hd.
    + intros pre d post -> Hpre Hd. apply filterM_first_raise.
      * eapply List.Forall_impl; [|exact Hpre].
        intros c Hc. rewrite (include_condition_well_formed lf c Hc). eauto.
      * apply conditions_without_memberships, Hd.
  - rewrite Hne. repeat split.
    + intros [kept Hk]. apply filterM_Ok_inv in Hk.
      eapply List.Forall_impl; [|exact Hk].
      intros c [b Hb]. eapply exclude_condition_Ok_inv, Hb.
    + intros Hwf. eexists. apply filterM_pure.
      eapply List.Forall_impl; [|exact Hwf].
      intros c Hc. apply exclude_condition_well_formed, Hc.
    + intros d Hin Hd. eapply filterM_In_raise; [exact Hin|].
      apply conditions_without_memberships, Hd.
    + intros pre d post -> Hpre Hd. apply filterM_first_raise.
      * eapply List.Forall_impl; [|exact Hpre].
        intros c Hc. rewrite (exclude_condition_well_formed lf c Hc). eauto.
      * apply conditions_without_memberships, Hd.
Qed.

(** A contact without memberships after a well-formed one: the exclude-only
    filter raises the key error; the empty filter returns the list. *)
Lemma filter_total_only_with_memberships_witness :
  filterContactsByLabel Sample.not_spam [Sample.ann; Sample.dan]
  = Raise (KeyError (PStr "memberships"))
  /\ filterContactsByLabel Sample.no_filter [Sample.ann; Sample.dan]
     = Ok [Sample.ann; Sample.dan].
Proof.
  split.
  - destruct (filter_total_only_with_memberships Sample.not_spam
                [Sample.ann; Sample.dan]) as [H _].
    destruct (H eq_refl) as (_ & _ & H').
    apply (H' [Sample.ann] [("resourceName", PStr "people/c4")] []).
    + reflexivity.
    + well_formed_by_computation.
    + reflexivity.
  - destruct (filter_total_only_with_memberships Sample.no_filter
                [Sample.ann; Sample.dan]) as [_ H].
    apply H; reflexivity.
Defined.

(** ** [getLabelName] *)

Lemma split_without_sep (c : ascii) (s : string) :
  has_char c s = false -> split c s = [s].
Proof.
  induction s as [|a s IH]; simpl; [reflexivity|].
  intros H. apply orb_false_iff in H as [Ha Hs].
  rewrite Ha, (IH Hs). reflexivity.
Qed.

Lemma split_head (c : ascii) (s : string) :
  exists rest, split c s = upto c s :: rest.
Proof.
  induction s as [|a s [rest IH]]; simpl; [eauto|].
  destruct (Ascii.eqb a c); [eauto|]. rewrite IH. eauto.
Qed.

Lemma split_at_first_sep (c : ascii) (pre post : string) :
  has_char c pre = false ->
  split c (pre +:+ String c post) = pre :: split c post.
Proof.
  induction pre as [|a pre IH]; simpl.
  - intros _. rewrite Ascii.eqb_refl. reflexivity.
  - intros H. apply orb_false_iff in H as [Ha Hp].
    rewrite Ha, (IH Hp). reflexivity.
Qed.

(** C9, amended: for a label id with a ['/'], [getLabelName] returns the
    name the reverse mapping has for the id and otherwise the id's local
    part, which is the text after the first ['/'] up to the next one (all
    of it when there is no other); a label id without ['/'] ends in an
    index error, mapped or not. *)
Theorem getLabelName_spec {R : Type} (g : Google R) (labelString : string) :
  (forall pre post,
     labelString = pre +:+ "/" +:+ post ->
     has_char "/" pre = false ->
     getLabelName g labelString
     = Ok (default (upto "/" post) (reverseLabelMapping g !! labelString)))
  /\ (forall pre post,
        labelString = pre +:+ "/" +:+ post ->
        has_char "/" pre = false -> has_char "/" post = false ->
        getLabelName g labelString
        = Ok (default post (reverseLabelMapping g !! labelString)))
  /\ (has_char "/" labelString = false ->
      getLabelName g labelString = Raise IndexError).
Proof.
  assert (Hfirst : forall pre post,
     labelString = pre +:+ "/" +:+ post ->
     has_char "/" pre = false ->
     getLabelName g labelString
     = Ok (default (upto "/" post) (reverseLabelMapping g !! labelString))).
  { intros pre post -> Hpre. unfold getLabelName.
    change ("/" +:+ post) with (String "/" post).
    rewrite (split_at_first_sep _ _ _ Hpre).
    destruct (split_head "/" post) as [rest ->]. reflexivity. }
  split; [exact Hfirst|]. split.
  - intros pre post Heq Hpre Hpost. rewrite (Hfirst pre post Heq Hpre).
    assert (Hu : upto "/" post = post).
    { clear -Hpost. induction post as [|a post IH]; simpl in *; [reflexivity|].
      apply orb_false_iff in Hpost as [Ha Hp]. rewrite Ha, (IH Hp).
      reflexivity. }
    rewrite Hu. reflexivity.
  - intros H. unfold getLabelName. rewrite (split_without_sep _ _ H).
    reflexivity.
Qed.

(** A mapped group id and an unmapped one. *)
Lemma getLabelName_spec_witness :
  getLabelName (Sample.labelled {[ Sample.friends := "Friends" ]})
    Sample.friends = Ok "Friends"
  /\ getLabelName (Sample.labelled {[ Sample.friends := "Friends" ]})
       Sample.work = Ok "work".
Proof.
  split.
  - destruct (getLabelName_spec
                (Sample.labelled {[ Sample.friends := "Friends" ]})
                Sample.friends) as (_ & H & _).
    rewrite (H "contactGroups" "friends"); reflexivity.
  - destruct (getLabelName_spec
                (Sample.labelled {[ Sample.friends := "Friends" ]})
                Sample.work) as (_ & H & _).
    rewrite (H "contactGroups" "work"); reflexivity.
Defined.

(** C9 as stated fails on a label id without ['/']: the id is mapped, and
    the lookup still ends in an index error instead of the mapped name. *)
Lemma getLabelName_without_slash :
  reverseLabelMapping (Sample.labelled {[ "myContacts" := "My contacts" ]})
    !! "myContacts" = Some "My contacts"
  /\ getLabelName (Sample.labelled {[ "myContacts" := "My contacts" ]})
       "myContacts" = Raise IndexError
  /\ getLabelName (Sample.labelled {[ "myContacts" := "My contacts" ]})
       "myContacts" <> Ok "My contacts".
Proof.
  split; [reflexivity|]. split; [reflexivity|]. discriminate.
Qed.

(** ** The payload builder *)

Module FormFacts.
Import Form.

Lemma country_field_falsy (key : string) (address : pydict) (c : pyval) :
  assoc "country" address = Some c -> truthy c = false ->
  country_field key address = Ok PNone.
Proof.
  intros Hc Ht. unfold country_field. simpl. rewrite Hc. simpl.
  rewrite Ht. reflexivity.
Qed.

Lemma country_field_dict (key : string) (address d : pydict) :
  assoc "country" address = Some (PDict d) -> d <> [] ->
  country_field key address = Ok (default PNone (assoc key d)).
Proof.
  intros Hc Hd. unfold country_field. simpl. rewrite Hc. simpl.
  destruct d; [congruence|]. reflexivity.
Qed.

Lemma country_field_missing (key : string) (address : pydict) :
  assoc "country" address = None ->
  country_field key address = Raise (KeyError (PStr "country")).
Proof. intros Hc. unfold country_field. simpl. rewrite Hc. reflexivity. Qed.

Lemma address_entry_supplied (address : pydict) :
  country_supplied address -> exists entry, address_entry address = Ok entry.
Proof.
  intros (c & Hc & [Ht | [d ->]]); unfold address_entry.
  - rewrite !(country_field_falsy _ _ _ Hc Ht). simpl. eauto.
  - destruct d as [|kv d].
    + rewrite !(country_field_falsy _ _ _ Hc eq_refl). simpl. eauto.
    + rewrite !(country_field_dict _ _ _ Hc) by discriminate. simpl. eauto.
Qed.

Lemma address_entries_supplied (addresses : list pydict) :
  Forall country_supplied addresses ->
  exists entries, mapM address_entry addresses = Ok entries.
Proof.
  induction 1 as [|a l Ha _ [entries IH]]; simpl; [eauto|].
  destruct (address_entry_supplied a Ha) as [entry ->]. simpl.
  rewrite IH. simpl. eauto.
Qed.

(** What the builder returns, by the outcome of the address comprehension. *)
Lemma form_unfold firstName lastName middleName birthdate phoneNumbers career
    emailAdresses labelIds addresses data :
  GoogleContactUploadForm firstName lastName middleName birthdate
    phoneNumbers career emailAdresses labelIds addresses = Ok data ->
  exists entries,
    (addresses <> [] -> mapM address_entry addresses = Ok entries) /\
    keys data = "names" :: expected_groups birthdate phoneNumbers career
                             emailAdresses labelIds addresses /\
    assoc "names" data = Some (names_group firstName lastName middleName) /\
    (addresses <> [] -> assoc "addresses" data = Some (PList entries)).
Proof.
  unfold GoogleContactUploadForm, expected_groups.
  destruct addresses as [|a l].
  - intros H. injection H as <-. exists [].
    destruct birthdate, career, phoneNumbers, emailAdresses, labelIds;
      repeat split; intros; try congruence; reflexivity.
  - change (nonempty (a :: l)) with true. cbv iota.
    destruct (mapM address_entry (a :: l)) as [entries|e]; [|
      destruct birthdate, career; discriminate].
    intros H. exists entries.
    destruct birthdate, career, phoneNumbers, emailAdresses, labelIds;
      injection H as <-; repeat split; intros; reflexivity.
Qed.

End FormFacts.

(** C8: with every optional input empty the builder returns the dict whose
    only key is [names], holding the three name parts; whenever it returns a
    dict, [names] is its first key and an optional group is among its keys
    iff the input of that group is non-empty; and it does return a dict
    when every address has a country entry that counts as false or is a
    dict (so always when there is no address). *)
Theorem form_optional_groups
    (firstName lastName middleName : string) (birthdate : pydict)
    (phoneNumbers : list string) (career : pydict)
    (emailAdresses labelIds : list string) (addresses : list pydict) :
  Form.GoogleContactUploadForm firstName lastName middleName [] [] [] [] [] []
  = Ok [("names",
         PList [PDict [("familyName", PStr lastName);
                       ("givenName", PStr firstName);
                       ("middleName", PStr middleName)]])]
  /\ (Forall Form.country_supplied addresses ->
      exists data,
        Form.GoogleContactUploadForm firstName lastName middleName birthdate
          phoneNumbers career emailAdresses labelIds addresses = Ok data)
  /\ (forall data,
        Form.GoogleContactUploadForm firstName lastName middleName birthdate
          phoneNumbers career emailAdresses labelIds addresses = Ok data ->
        Form.keys data
        = "names" :: Form.expected_groups birthdate phoneNumbers career
                       emailAdresses labelIds addresses
        /\ assoc "names" data
           = Some (Form.names_group firstName lastName middleName)
        /\ (In "birthdays" (Form.keys data) <-> birthdate <> [])
        /\ (In "organizations" (Form.keys data) <-> career <> [])
        /\ (In "addresses" (Form.keys data) <-> addresses <> [])
        /\ (In "phoneNumbers" (Form.keys data) <-> phoneNumbers <> [])
        /\ (In "emailAddresses" (Form.keys data) <-> emailAdresses <> [])
        /\ (In "memberships" (Form.keys data) <-> labelIds <> [])).
Proof.
  split; [reflexivity|]. split.
  - intros Hs. unfold Form.GoogleContactUploadForm.
    destruct (FormFacts.address_entries_supplied addresses Hs) as [entries ->].
    destruct (nonempty addresses); simpl; eauto.
  - intros data H.
    destruct (FormFacts.form_unfold _ _ _ _ _ _ _ _ _ _ H)
      as (entries & _ & Hk & Hn & _).
    split; [exact Hk|]. split; [exact Hn|]. rewrite Hk. clear.
    unfold Form.expected_groups.
    destruct birthdate, career, addresses, phoneNumbers, emailAdresses,
      labelIds; simpl;
      repeat split; intros; try discriminate; try congruence;
      intuition discriminate.
Qed.

(** A call with a birth date and one phone number. *)
Lemma form_optional_groups_witness :
  Form.keys
    (match Form.GoogleContactUploadForm "Ada" "Lovelace" ""
             [("year", PInt 1815); ("month", PInt 12); ("day", PInt 10)]
             ["+44 20 7946 0000"] [] [] [] [] with
     | Ok data => data
     | Raise _ => []
     end) = ["names"; "birthdays"; "phoneNumbers"].
Proof.
  destruct (form_optional_groups "Ada" "Lovelace" ""
              [("year", PInt 1815); ("month", PInt 12); ("day", PInt 10)]
              ["+44 20 7946 0000"] [] [] [] []) as (_ & Hex & Hk).
  destruct Hex as [data Hd]; [constructor|]. rewrite Hd.
  destruct (Hk data Hd) as [-> _]. reflexivity.
Defined.

Lemma mapM_In_raise {A B} (f : A -> outcome B) (l : list A) (x : A) (e : exn) :
  In x l -> f x = Raise e -> exists e', mapM f l = Raise e'.
Proof.
  intros Hin Hx. induction l as [|y l IH]; [destruct Hin|]. simpl.
  destruct (f y) as [b|e'] eqn:Hy; simpl; [|eauto].
  destruct Hin as [->|Hin]; [congruence|].
  destruct (IH Hin) as [e' ->]. eauto.
Qed.

(** C7, amended: the [addresses] group of a returned payload holds one
    entry per supplied address, in order.  For an address whose [country]
    entry is there and counts as false (None, an empty dict) the entry's
    [country] and [countryCode] are None; for one whose [country] entry is
    a non-empty dict they are its [name] and [iso] entries, None where the
    dict lacks them.  An address without a [country] entry raises the key
    error for [country], and the builder returns no payload. *)
Theorem form_address_country
    (firstName lastName middleName : string) (birthdate : pydict)
    (phoneNumbers : list string) (career : pydict)
    (emailAdresses labelIds : list string) (addresses : list pydict) :
  (forall data,
     Form.GoogleContactUploadForm firstName lastName middleName birthdate
       phoneNumbers career emailAdresses labelIds addresses = Ok data ->
     addresses <> [] ->
     exists entries,
       assoc "addresses" data = Some (PList entries) /\
       Forall2 (fun address entry => Form.address_entry address = Ok entry)
               addresses entries)
  /\ (forall address country,
        assoc "country" address = Some country -> truthy country = false ->
        exists entry,
          Form.address_entry address = Ok (PDict entry) /\
          assoc "country" entry = Some PNone /\
          assoc "countryCode" entry = Some PNone)
  /\ (forall address d,
        assoc "country" address = Some (PDict d) -> d <> [] ->
        exists entry,
          Form.address_entry address = Ok (PDict entry) /\
          assoc "country" entry = Some (default PNone (assoc "name" d)) /\
          assoc "countryCode" entry = Some (default PNone (assoc "iso" d)))
  /\ (forall address,
        assoc "country" address = None ->
        Form.address_entry address = Raise (KeyError (PStr "country")) /\
        (In address addresses ->
         forall data,
           Form.GoogleContactUploadForm firstName lastName middleName
             birthdate phoneNumbers career emailAdresses labelIds addresses
           <> Ok data)).
Proof.
  split; [|split; [|split]].
  - intros data H Hne.
    destruct (FormFacts.form_unfold _ _ _ _ _ _ _ _ _ _ H)
      as (entries & He & _ & _ & Ha).
    exists entries. split; [exact (Ha Hne)|]. apply mapM_Forall2, He, Hne.
  - intros address country Hc Ht. unfold Form.address_entry.
    rewrite !(FormFacts.country_field_falsy _ _ _ Hc Ht). simpl.
    eexists. split; [reflexivity|]. split; reflexivity.
  - intros address d Hc Hd. unfold Form.address_entry.
    rewrite !(FormFacts.country_field_dict _ _ _ Hc Hd). simpl.
    eexists. split; [reflexivity|]. split; reflexivity.
  - intros address Hc.
    assert (Hr : Form.address_entry address = Raise (KeyError (PStr "country"))).
    { unfold Form.address_entry.
      rewrite (FormFacts.country_field_missing _ _ Hc). reflexivity. }
    split; [exact Hr|]. intros Hin data H.
    destruct (FormFacts.form_unfold _ _ _ _ _ _ _ _ _ _ H)
      as (entries & He & _).
    destruct (mapM_In_raise _ _ _ _ Hin Hr) as [e' He'].
    rewrite He in He'; [discriminate|]. intros ->. destruct Hin.
Qed.

(** An address with a null country and one with a country object. *)
Lemma form_address_country_witness :
  Form.address_entry [("city", PStr "London"); ("country", PNone)]
  = Ok (PDict [("type", PStr ""); ("streetAddress", PStr "");
               ("city", PStr "London"); ("region", PStr "");
               ("postalCode", PStr ""); ("country", PNone);
               ("countryCode", PNone)])
  /\ exists entry,
       Form.address_entry
         [("city", PStr "Paris");
          ("country", PDict [("name", PStr "France"); ("iso", PStr "FR")])]
       = Ok (PDict entry) /\
       assoc "country" entry = Some (PStr "France") /\
       assoc "countryCode" entry = Some (PStr "FR").
Proof.
  destruct (form_address_country "" "" "" [] [] [] [] [] [])
    as (_ & Hnull & Hdict & _).
  split.
  - destruct (Hnull [("city", PStr "London"); ("country", PNone)] PNone
                eq_refl eq_refl) as (entry & He & _).
    reflexivity.
  - apply (Hdict [("city", PStr "Paris");
                  ("country", PDict [("name", PStr "France"); ("iso", PStr "FR")])]
                 [("name", PStr "France"); ("iso", PStr "FR")] eq_refl).
    discriminate.
Defined.

(** C7 as stated fails on an address with no [country] entry at all: the
    builder raises the key error and produces no address. *)
Lemma form_address_without_country :
  assoc "country" [("street", PStr "1 Main St")] = None
  /\ Form.GoogleContactUploadForm "Ada" "Lovelace" "" [] [] [] [] []
       [[("street", PStr "1 Main St")]]
     = Raise (KeyError (PStr "country"))
  /\ ~ exists data,
         Form.GoogleContactUploadForm "Ada" "Lovelace" "" [] [] [] [] []
           [[("street", PStr "1 Main St")]] = Ok data.
Proof.
  split; [reflexivity|]. split; [reflexivity|].
  intros [data H]. discriminate H.
Qed.

(** ** [createContact] and [updateContact] *)

Section CreateUpdate.

Context {R : Type}.
Variable svc : Service R.
Variable py_str : pyval -> string.

(** The soft failure of [createContact]: when the payload has a first
    [names] element, a refused request leaves a warning that quotes it and
    the call returns None. *)
Lemma createContact_soft_failure (g : Google R) (data name : pyval)
    (reason : string) (r' : R) :
  people_createContact svc syncFields data (remote g)
  = (Raise (HttpError reason), r') ->
  name_entry data = Ok name ->
  createContact svc py_str g data
  = (logged Warning (create_failed py_str name reason) (with_remote r' g),
     Ok PNone).
Proof.
  intros Hreq Hname. unfold createContact. rewrite Hreq, Hname. reflexivity.
Qed.

Lemma updateContact_soft_failure (g : Google R) (data rn name : pyval)
    (reason : string) (r' : R) :
  getitem data "resourceName" = Ok rn ->
  people_updateContact svc rn updateFields data (remote g)
  = (Raise (HttpError reason), r') ->
  name_entry data = Ok name ->
  updateContact svc py_str g data
  = (logged Warning (update_failed py_str name reason) (with_remote r' g),
     Ok PNone).
Proof.
  intros Hrn Hreq Hname. unfold updateContact.
  rewrite Hrn, Hreq, Hname. reflexivity.
Qed.

(** The warning quotes the payload's name entry. *)
Lemma failure_messages_quote_name (name : pyval) (reason : string) :
  (exists pre post, create_failed py_str name reason
                    = pre +:+ py_str name +:+ post) /\
  (exists pre post, update_failed py_str name reason
                    = pre +:+ py_str name +:+ post).
Proof.
  split; exists "'"; eexists; reflexivity.
Qed.

(** When the payload has no usable [names] entry, the handler of the
    refused request raises in turn. *)
Lemma createContact_failure_without_name (g : Google R) (data : pyval)
    (reason : string) (r' : R) (e : exn) :
  people_createContact svc syncFields data (remote g)
  = (Raise (HttpError reason), r') ->
  name_entry data = Raise e ->
  createContact svc py_str g data = (with_remote r' g, Raise e).
Proof.
  intros Hreq Hname. unfold createContact. rewrite Hreq, Hname. reflexivity.
Qed.

Lemma updateContact_failure_without_name (g : Google R) (data rn : pyval)
    (reason : string) (r' : R) (e : exn) :
  getitem data "resourceName" = Ok rn ->
  people_updateContact svc rn updateFields data (remote g)
  = (Raise (HttpError reason), r') ->
  name_entry data = Raise e ->
  updateContact svc py_str g data = (with_remote r' g, Raise e).
Proof.
  intros Hrn Hreq Hname. unfold updateContact.
  rewrite Hrn, Hreq, Hname. reflexivity.
Qed.

Lemma updateContact_contacts (g : Google R) (data : pyval) :
  contacts (fst (updateContact svc py_str g data)) = contacts g.
Proof.
  unfold updateContact.
  destruct (getitem data "resourceName") as [rn|e]; [|reflexivity].
  destruct (people_updateContact svc rn updateFields data (remote g))
    as [[result|e] r'].
  - simpl. destruct (get result "resourceName" (PStr "-")); [|reflexivity].
    destruct (display_name result); reflexivity.
  - destruct e; try reflexivity. destruct (name_entry data); reflexivity.
Qed.

Lemma createContact_appends (g g' : Google R) (data result x : pyval) (r' : R) :
  people_createContact svc syncFields data (remote g) = (Ok result, r') ->
  createContact svc py_str g data = (g', Ok x) ->
  x = result /\ contacts g' = contacts g ++ [result].
Proof.
  intros Hreq. unfold createContact. rewrite Hreq. simpl.
  destruct (get result "resourceName" (PStr "-")) as [id|]; [|discriminate].
  destruct (display_name result); [|discriminate].
  destruct (hashable id); [|discriminate].
  intros H. injection H as <- <-. split; reflexivity.
Qed.

End CreateUpdate.

(** C5: [updateContact] leaves the contact cache as it is, whatever the
    payload and whatever the remote side answers or raises; a
    [createContact] whose request is answered and which returns has
    appended the created record to the cache and returns it. *)
Theorem updateContact_never_touches_cache {R : Type} (svc : Service R)
    (py_str : pyval -> string) (g : Google R) (data : pyval) :
  contacts (fst (updateContact svc py_str g data)) = contacts g
  /\ (forall result r' g' x,
        people_createContact svc syncFields data (remote g) = (Ok result, r') ->
        createContact svc py_str g data = (g', Ok x) ->
        x = result /\ contacts g' = contacts g ++ [result]).
Proof.
  split; [apply updateContact_contacts|].
  intros result r' g' x. apply createContact_appends.
Qed.

(** An update and a create that the remote side answers with [cid], on a
    cache that holds [ann]. *)
Lemma updateContact_never_touches_cache_witness :
  contacts (fst (updateContact (Sample.answering Sample.cid) Sample.str
                   (Sample.adapter Sample.no_filter [Sample.ann]) Sample.cid))
  = [Sample.ann]
  /\ contacts (fst (createContact (Sample.answering Sample.cid) Sample.str
                      (Sample.adapter Sample.no_filter [Sample.ann])
                      Sample.cid))
     = [Sample.ann; Sample.cid].
Proof.
  destruct (updateContact_never_touches_cache (Sample.answering Sample.cid)
              Sample.str (Sample.adapter Sample.no_filter [Sample.ann])
              Sample.cid) as [Hu Hc].
  split; [exact Hu|].
  apply (Hc Sample.cid [Sample.cid] _ Sample.cid); reflexivity.
Defined.

(** C4 fails for a payload without a [names] entry: the remote side
    refuses the request, and the handler that is to log the warning raises
    the key error for [names] instead of returning None; nothing is
    logged. *)
Theorem soft_failure_raises_without_names :
  let g := Sample.adapter Sample.no_filter [] in
  let data := PDict [("resourceName", PStr "people/c9");
                     ("emailAddresses",
                      PList [PDict [("value", PStr "eve@example.org")]])] in
  snd (createContact Sample.refusing Sample.str g data)
  = Raise (KeyError (PStr "names"))
  /\ snd (updateContact Sample.refusing Sample.str g data)
     = Raise (KeyError (PStr "names"))
  /\ log (fst (createContact Sample.refusing Sample.str g data)) = []
  /\ log (fst (updateContact Sample.refusing Sample.str g data)) = [].
Proof. repeat split. Qed.

(** ** [getContact] *)

Section GetContact.

Context {R : Type}.
Variable svc : Service R.
Variable py_str : pyval -> string.
Variable exn_str : exn -> string.

Lemma getContact_cached (g : Google R) (id : string) (c : pyval)
    (more : list pyval) :
  cached py_str g id = Ok (c :: more) ->
  getContact svc py_str exn_str g id = (g, Ok c).
Proof.
  intros Hc. unfold getContact, getContact_body. rewrite Hc. reflexivity.
Qed.

Lemma getContact_remote_error (g : Google R) (id reason : string) (r' : R) :
  cached py_str g id = Ok [] ->
  people_get svc (get_parameters id) (remote g) = (Raise (HttpError reason), r') ->
  getContact svc py_str exn_str g id
  = (logged Error (fetch_failed id reason) (with_remote r' g),
     Raise (PyException (fetch_failed id reason))).
Proof.
  intros Hc Hreq. unfold getContact, getContact_body.
  rewrite Hc, Hreq. reflexivity.
Qed.

Lemma getContact_filtered_out (g : Google R) (id : string) (result : pyval)
    (r' : R) :
  cached py_str g id = Ok [] ->
  people_get svc (get_parameters id) (remote g) = (Ok result, r') ->
  filterContactsByLabel (labelFilter g) [result] = Ok [] ->
  getContact svc py_str exn_str g id
  = (logged Info (not_allowed id) (count_request (with_remote r' g)),
     Raise (PyException (not_allowed id))).
Proof.
  intros Hc Hreq Hf. unfold getContact, getContact_body.
  rewrite Hc, Hreq.
  cbn [labelFilter count_request with_remote]. rewrite Hf. reflexivity.
Qed.

Lemma getContact_kept (g : Google R) (id : string) (result c : pyval)
    (more : list pyval) (r' : R) :
  cached py_str g id = Ok [] ->
  people_get svc (get_parameters id) (remote g) = (Ok result, r') ->
  filterContactsByLabel (labelFilter g) [result] = Ok (c :: more) ->
  getContact svc py_str exn_str g id
  = (with_contacts (contacts g ++ [c]) (count_request (with_remote r' g)),
     Ok c).
Proof.
  intros Hc Hreq Hf. unfold getContact, getContact_body.
  rewrite Hc, Hreq.
  cbn [labelFilter count_request with_remote]. rewrite Hf. reflexivity.
Qed.

(** A fetched contact the filter cannot evaluate is not reported as
    filtered out: the key error of the filter takes the last handler. *)
Lemma getContact_filter_raises (g : Google R) (id : string) (result k : pyval)
    (r' : R) :
  cached py_str g id = Ok [] ->
  people_get svc (get_parameters id) (remote g) = (Ok result, r') ->
  filterContactsByLabel (labelFilter g) [result] = Raise (KeyError k) ->
  getContact svc py_str exn_str g id
  = (logged Error (fetch_failed id (exn_str (KeyError k)))
       (count_request (with_remote r' g)),
     Raise (PyException (fetch_failed id (exn_str (KeyError k))))).
Proof.
  intros Hc Hreq Hf. unfold getContact, getContact_body.
  rewrite Hc, Hreq.
  cbn [labelFilter count_request with_remote]. rewrite Hf. reflexivity.
Qed.

Lemma not_allowed_is_not_fetch_failed (id id' reason : string) :
  not_allowed id <> fetch_failed id' reason.
Proof. unfold not_allowed, fetch_failed. simpl. discriminate. Qed.

End GetContact.

(** C6, amended: a fetch of an id that no cached contact matches, answered
    by the remote side with a contact the filter can evaluate (a well-formed
    one; any contact when both label sets are empty).  When the contact
    does not pass the filter, the fetch raises the exception with the "not
    allowed by label filter" message, that message is the one record added
    to the log, at info level, and the cache is as it was; when it passes,
    it is appended to the cache and returned, and nothing is logged.  In
    both cases the request is counted.  A remote failure of the same fetch
    adds one record at error level with the "Failed to fetch" message,
    which is never the filter's message, and is not counted. *)
Theorem getContact_not_cached {R : Type} (svc : Service R)
    (py_str : pyval -> string) (exn_str : exn -> string)
    (g : Google R) (id : string) (response : outcome pyval) (r' : R) :
  cached py_str g id = Ok [] ->
  people_get svc (get_parameters id) (remote g) = (response, r') ->
  (forall result,
     response = Ok result ->
     (nonempty (include (labelFilter g)) || nonempty (exclude (labelFilter g))
      = true -> well_formed result) ->
     (passes (labelFilter g) result = false ->
      snd (getContact svc py_str exn_str g id)
      = Raise (PyException (not_allowed id))
      /\ log (fst (getContact svc py_str exn_str g id))
         = log g ++ [(Info, not_allowed id)]
      /\ contacts (fst (getContact svc py_str exn_str g id)) = contacts g
      /\ apiRequests (fst (getContact svc py_str exn_str g id))
         = S (apiRequests g)
      /\ remote (fst (getContact svc py_str exn_str g id)) = r')
     /\ (passes (labelFilter g) result = true ->
         snd (getContact svc py_str exn_str g id) = Ok result
         /\ contacts (fst (getContact svc py_str exn_str g id))
            = contacts g ++ [result]
         /\ log (fst (getContact svc py_str exn_str g id)) = log g
         /\ apiRequests (fst (getContact svc py_str exn_str g id))
            = S (apiRequests g)
         /\ remote (fst (getContact svc py_str exn_str g id)) = r'))
  /\ (forall reason,
        response = Raise (HttpError reason) ->
        snd (getContact svc py_str exn_str g id)
        = Raise (PyException (fetch_failed id reason))
        /\ log (fst (getContact svc py_str exn_str g id))
           = log g ++ [(Error, fetch_failed id reason)]
        /\ contacts (fst (getContact svc py_str exn_str g id)) = contacts g
        /\ apiRequests (fst (getContact svc py_str exn_str g id))
           = apiRequests g)
  /\ (forall reason, not_allowed id <> fetch_failed id reason).
Proof.
  intros Hc Hreq. split; [|split].
  - intros result -> Hwf.
    assert (Hf : filterContactsByLabel (labelFilter g) [result]
                 = Ok (List.filter (passes (labelFilter g)) [result])).
    { apply filter_passes. intros H. constructor; [apply Hwf, H|constructor]. }
    simpl in Hf. split; intros Hp; rewrite Hp in Hf.
    + rewrite (getContact_filtered_out svc py_str exn_str g id result r' Hc Hreq Hf).
      repeat split.
    + rewrite (getContact_kept svc py_str exn_str g id result result [] r' Hc Hreq Hf).
      repeat split.
  - intros reason ->.
    rewrite (getContact_remote_error svc py_str exn_str g id reason r' Hc Hreq).
    repeat split.
  - intros reason. apply not_allowed_is_not_fetch_failed.
Qed.

(** With the friends-not-spam filter and [ann] in the cache: fetching
    [bob], who is in the spam group, is refused by the filter with one
    info record and leaves the cache alone; fetching [cid] with no filter
    appends him and logs nothing; a fetch that the remote side refuses
    leaves one error record. *)
Lemma getContact_not_cached_witness :
  (snd (getContact (Sample.answering Sample.bob) Sample.str Sample.exn_text
          (Sample.adapter Sample.friends_not_spam [Sample.ann]) "people/c2")
   = Raise (PyException
              "Contact processing of 'people/c2' not allowed by label filter")
   /\ log (fst (getContact (Sample.answering Sample.bob) Sample.str
                  Sample.exn_text
                  (Sample.adapter Sample.friends_not_spam [Sample.ann])
                  "people/c2"))
      = [(Info,
          "Contact processing of 'people/c2' not allowed by label filter")]
   /\ contacts (fst (getContact (Sample.answering Sample.bob) Sample.str
                       Sample.exn_text
                       (Sample.adapter Sample.friends_not_spam [Sample.ann])
                       "people/c2"))
      = [Sample.ann])
  /\ (snd (getContact (Sample.answering Sample.cid) Sample.str
             Sample.exn_text
             (Sample.adapter Sample.no_filter [Sample.ann]) "people/c3")
      = Ok Sample.cid
      /\ contacts (fst (getContact (Sample.answering Sample.cid) Sample.str
                          Sample.exn_text
                          (Sample.adapter Sample.no_filter [Sample.ann])
                          "people/c3"))
         = [Sample.ann; Sample.cid]
      /\ log (fst (getContact (Sample.answering Sample.cid) Sample.str
                     Sample.exn_text
                     (Sample.adapter Sample.no_filter [Sample.ann])
                     "people/c3")) = [])
  /\ log (fst (getContact
                 (Sample.recording
                    (fun _ _ => Raise (HttpError "Not Found"))
                    Sample.unused Sample.unused Sample.unused)
                 Sample.str Sample.exn_text
                 (Sample.adapter Sample.no_filter [Sample.ann]) "people/c9"))
     = [(Error, "Failed to fetch Google contact 'people/c9': Not Found")].
Proof.
  destruct (getContact_not_cached (Sample.answering Sample.bob) Sample.str
              Sample.exn_text
              (Sample.adapter Sample.friends_not_spam [Sample.ann])
              "people/c2" (Ok Sample.bob) [PDict (get_parameters "people/c2")]
              eq_refl eq_refl) as (Hbob & _ & _).
  destruct (getContact_not_cached (Sample.answering Sample.cid) Sample.str
              Sample.exn_text
              (Sample.adapter Sample.no_filter [Sample.ann])
              "people/c3" (Ok Sample.cid) [PDict (get_parameters "people/c3")]
              eq_refl eq_refl) as (Hcid & _ & _).
  destruct (getContact_not_cached
              (Sample.recording (fun _ _ => Raise (HttpError "Not Found"))
                 Sample.unused Sample.unused Sample.unused)
              Sample.str Sample.exn_text
              (Sample.adapter Sample.no_filter [Sample.ann])
              "people/c9" (Raise (HttpError "Not Found"))
              [PDict (get_parameters "people/c9")]
              eq_refl eq_refl) as (_ & Herr & _).
  split; [|split].
  - destruct (Hbob Sample.bob eq_refl) as [Hout _].
    + intros _. well_formed_by_computation.
    + destruct (Hout eq_refl) as (H1 & H2 & H3 & _).
      rewrite H1, H2, H3. repeat split.
  - destruct (Hcid Sample.cid eq_refl) as [_ Hin].
    + intros H. discriminate H.
    + destruct (Hin eq_refl) as (H1 & H2 & H3 & _).
      rewrite H1, H2, H3. repeat split.
  - destruct (Herr "Not Found" eq_refl) as (_ & H2 & _).
    rewrite H2. reflexivity.
Defined.

(** C6 as stated fails on a fetched contact that has no [memberships]
    entry.  Under the friends-not-spam filter [dan] carries no label of the
    include set and so does not pass; the fetch does not end in the "not
    allowed by label filter" exception with an info record, but in the
    "Failed to fetch" exception with an error record, as a remote failure
    does. *)
Lemma getContact_without_memberships_is_an_error :
  passes Sample.friends_not_spam Sample.dan = false
  /\ snd (getContact (Sample.answering Sample.dan) Sample.str Sample.exn_text
            (Sample.adapter Sample.friends_not_spam [Sample.ann]) "people/c4")
     = Raise (PyException
                "Failed to fetch Google contact 'people/c4': 'memberships'")
  /\ log (fst (getContact (Sample.answering Sample.dan) Sample.str
                 Sample.exn_text
                 (Sample.adapter Sample.friends_not_spam [Sample.ann])
                 "people/c4"))
     = [(Error, "Failed to fetch Google contact 'people/c4': 'memberships'")]
  /\ snd (getContact (Sample.answering Sample.dan) Sample.str Sample.exn_text
            (Sample.adapter Sample.friends_not_spam [Sample.ann]) "people/c4")
     <> Raise (PyException (not_allowed "people/c4")).
Proof.
  split; [reflexivity|]. split; [reflexivity|]. split; [reflexivity|].
  vm_compute. discriminate.
Qed.

(** ** The paginated walk *)

Section Fetch.

Context {R : Type}.
Variable svc : Service R.

Lemma get_Ok_dict (v : pyval) (k : string) (dflt x : pyval) :
  get v k dflt = Ok x -> exists d, v = PDict d.
Proof. destruct v; simpl; try discriminate. eauto. Qed.

Lemma served_count_request (n : nat) (r1 r' : R) (g : Google R) :
  served n r' (count_request (with_remote r1 g)) = served (S n) r' g.
Proof. unfold served. simpl. f_equal. lia. Qed.

Lemma with_contacts_served (n : nat) (r1 r' : R) (g : Google R)
    (kept : list pyval) :
  with_contacts kept (served n r' (count_request (with_remote r1 g)))
  = with_contacts kept (served (S n) r' g).
Proof. now rewrite served_count_request. Qed.



End Fetch.



(** ** [getContacts] and the expired sync token *)

Section GetContacts.

Context {R : Type}.
Variable svc : Service R.

(** A walk whose first request is refused leaves the parameters as they
    were. *)
Lemma fetchContacts_first_request_fails (fuel : nat) (g : Google R)
    (parameters : pydict) (e : exn) (r' : R) :
  connections_list svc parameters (remote g) = (Raise e, r') ->
  fetchContacts svc (S fuel) g parameters
  = (with_remote r' g, parameters, Some (Raise e)).
Proof.
  intros Hreq. unfold fetchContacts. simpl. rewrite Hreq. reflexivity.
Qed.

(** The one retry: after a walk that ended in the sync-token failure, the
    token is popped from the parameters as that walk left them and a second
    walk runs; whatever the second walk ends in is the end of the call. *)
Lemma getContacts_restart (fuel : nat) (g g1 : Google R) (refetchData : bool)
    (params parameters1 parameters2 : pydict) (reason : string)
    (token : pyval) :
  dataAlreadyFetched g && negb refetchData = false ->
  fetchContacts svc fuel (logged Info fetching_msg g)
    (dict_merge base_parameters params)
  = (g1, parameters1, Some (Raise (HttpError reason))) ->
  contains "Sync token" reason = true ->
  dict_pop "syncToken" parameters1 = Ok (token, parameters2) ->
  getContacts svc fuel g refetchData params
  = match fetchContacts svc fuel (logged Warning token_expired_msg g1)
            parameters2 with
    | (g2, _, None) => (g2, None)
    | (g2, _, Some (Ok _)) => getContacts_finish g2
    | (g2, _, Some (Raise e)) => (g2, Some (Raise e))
    end.
Proof.
  intros Hskip Hwalk Hreason Hpop. unfold getContacts.
  rewrite Hskip, Hwalk, Hreason, Hpop. reflexivity.
Qed.

(** Any other remote failure of the walk reaches the caller as a plain
    exception with the reason. *)
Lemma getContacts_other_failure (fuel : nat) (g g1 : Google R)
    (refetchData : bool) (params parameters1 : pydict) (reason : string) :
  dataAlreadyFetched g && negb refetchData = false ->
  fetchContacts svc fuel (logged Info fetching_msg g)
    (dict_merge base_parameters params)
  = (g1, parameters1, Some (Raise (HttpError reason))) ->
  contains "Sync token" reason = false ->
  getContacts svc fuel g refetchData params
  = (g1, Some (Raise (PyException reason))).
Proof.
  intros Hskip Hwalk Hreason. unfold getContacts.
  rewrite Hskip, Hwalk, Hreason. reflexivity.
Qed.

(** Without a [syncToken] among the parameters the retry ends in the key
    error of the [pop]. *)
Lemma getContacts_restart_without_token (fuel : nat) (g g1 : Google R)
    (refetchData : bool) (params parameters1 : pydict) (reason : string) :
  dataAlreadyFetched g && negb refetchData = false ->
  fetchContacts svc fuel (logged Info fetching_msg g)
    (dict_merge base_parameters params)
  = (g1, parameters1, Some (Raise (HttpError reason))) ->
  contains "Sync token" reason = true ->
  assoc "syncToken" parameters1 = None ->
  getContacts svc fuel g refetchData params
  = (logged Warning token_expired_msg g1,
     Some (Raise (KeyError (PStr "syncToken")))).
Proof.
  intros Hskip Hwalk Hreason Hnone. unfold getContacts, dict_pop.
  rewrite Hskip, Hwalk, Hreason, Hnone. reflexivity.
Qed.

End GetContacts.

(** C3 fails when the sync token is refused after the first page.  The
    remote side answers the first request with [ann] and a page token and
    refuses the second for its sync token.  The retry drops the sync token
    but keeps the page token the first walk has written into the shared
    parameters: its only request asks for the second page, and the call
    returns [bob] alone, where a walk from scratch returns [ann] and
    [bob]. *)
Theorem restart_keeps_page_token :
  let g := Sample.adapter Sample.no_filter [] in
  let out := getContacts Sample.expiring 5 g false [("syncToken", PStr "s1")] in
  snd out = Some (Ok [Sample.bob])
  /\ remote (fst out)
     = [PDict (base_parameters ++ [("syncToken", PStr "s1")]);
        PDict (base_parameters ++ [("syncToken", PStr "s1");
                                   ("pageToken", PStr "t1")]);
        PDict (base_parameters ++ [("pageToken", PStr "t1")])]
  /\ log (fst out)
     = [(Info, fetching_msg); (Warning, token_expired_msg);
        (Info, finished_msg)]
  /\ snd (getContacts Sample.expiring 5 g false [])
     = Some (Ok [Sample.ann; Sample.bob]).
Proof. repeat split. Qed.

(** * Further properties of the adapter and the builder *)

(** ** The label mapping *)

Lemma list_to_map_set_item (k v : string) (d : list (string * string)) :
  (list_to_map (set_item k v d) : gmap string string)
  = <[k := v]> (list_to_map d).
Proof.
  induction d as [|[k' v'] d IH]; simpl; [reflexivity|].
  destruct (String.eqb_spec k k') as [->|Hne]; simpl.
  - now rewrite insert_insert_eq.
  - rewrite IH. now apply insert_insert_ne.
Qed.

Lemma set_item_keys (k v k' : string) (d : list (string * string)) :
  In k' (List.map fst (set_item k v d)) <-> k' = k \/ In k' (List.map fst d).
Proof.
  induction d as [|[k0 v0] d IH]; simpl; [intuition|].
  destruct (String.eqb_spec k k0) as [->|Hne]; simpl; [intuition|].
  rewrite IH. intuition.
Qed.

Lemma set_item_NoDup (k v : string) (d : list (string * string)) :
  List.NoDup (List.map fst d) -> List.NoDup (List.map fst (set_item k v d)).
Proof.
  induction d as [|[k0 v0] d IH]; simpl; intros Hd.
  - constructor; [intros []|constructor].
  - destruct (String.eqb_spec k k0) as [->|Hne]; simpl; [exact Hd|].
    inversion Hd as [|? ? Hnot Hd']; subst. constructor; [|apply IH, Hd'].
    rewrite set_item_keys. intros [->|Hin]; [congruence|contradiction].
Qed.

Lemma label_items_NoDup (groups : list ContactGroup.t) :
  List.NoDup (List.map fst (label_items groups)).
Proof.
  unfold label_items.
  assert (H : forall l d, List.NoDup (List.map fst d) ->
    List.NoDup (List.map fst
      (fold_left (fun d group => set_item (ContactGroup.name group)
                                   (ContactGroup.resourceName group) d) l d))).
  { induction l as [|g l IH]; simpl; intros d Hd; [exact Hd|].
    apply IH, set_item_NoDup, Hd. }
  apply H. constructor.
Qed.

(** The mapping holds, for a name, the resource name of the last group of
    that name that the comprehension takes. *)
Lemma fold_insert_last (l : list ContactGroup.t) (m : gmap string string)
    (n : string) :
  fold_left (fun m group => <[ContactGroup.name group
                              := ContactGroup.resourceName group]> m) l m !! n
  = match last (List.filter
                  (fun group => String.eqb (ContactGroup.name group) n) l) with
    | Some group => Some (ContactGroup.resourceName group)
    | None => m !! n
    end.
Proof.
  induction l as [|g l IH] using rev_ind; simpl; [reflexivity|].
  rewrite fold_left_app, List.filter_app. simpl.
  destruct (String.eqb_spec (ContactGroup.name g) n) as [<-|Hne].
  - rewrite last_snoc. apply lookup_insert_eq.
  - rewrite app_nil_r, lookup_insert_ne by exact Hne. exact IH.
Qed.

Lemma label_items_fold (l : list ContactGroup.t) (d : list (string * string)) :
  (list_to_map
     (fold_left (fun d group => set_item (ContactGroup.name group)
                                  (ContactGroup.resourceName group) d) l d)
   : gmap string string)
  = fold_left (fun m group => <[ContactGroup.name group
                                := ContactGroup.resourceName group]> m)
      l (list_to_map d).
Proof.
  revert d. induction l as [|g l IH]; intros d; simpl; [reflexivity|].
  now rewrite IH, list_to_map_set_item.
Qed.

Lemma filter_filter {A} (p q : A -> bool) (l : list A) :
  List.filter q (List.filter p l) = List.filter (fun x => p x && q x) l.
Proof.
  induction l as [|x l IH]; simpl; [reflexivity|].
  destruct (p x); simpl; [destruct (q x)|]; now rewrite IH.
Qed.

Lemma label_items_lookup (groups : list ContactGroup.t) (n : string) :
  (list_to_map (label_items groups) : gmap string string) !! n
  = ContactGroup.resourceName <$> last (named n groups).
Proof.
  unfold label_items, named. rewrite label_items_fold, fold_insert_last.
  rewrite filter_filter. simpl.
  destruct (last _); reflexivity.
Qed.

Lemma reverse_fold_cases (items : list (string * string))
    (m : gmap string string) (i : string) :
  fold_left (fun m item => <[snd item := fst item]> m) items m !! i = m !! i
  \/ exists n, In (n, i) items /\
               fold_left (fun m item => <[snd item := fst item]> m) items m !! i
               = Some n.
Proof.
  induction items as [|[n' i'] items IH] using rev_ind; simpl; [now left|].
  rewrite fold_left_app. simpl.
  destruct (decide (i' = i)) as [->|Hne].
  - right. exists n'. rewrite lookup_insert_eq. split; [|reflexivity].
    apply in_or_app. right. now left.
  - rewrite lookup_insert_ne by exact Hne.
    destruct IH as [IH|(n & Hin & IH)]; [now left|].
    right. exists n. split; [apply in_or_app; now left|exact IH].
Qed.

Lemma reverse_fold_In (items : list (string * string))
    (m : gmap string string) (n i : string) :
  In (n, i) items ->
  exists n', In (n', i) items /\
             fold_left (fun m item => <[snd item := fst item]> m) items m !! i
             = Some n'.
Proof.
  induction items as [|[n0 i0] items IH] using rev_ind; [intros []|].
  intros Hin. rewrite fold_left_app. simpl.
  destruct (decide (i0 = i)) as [->|Hne].
  - exists n0. rewrite lookup_insert_eq. split; [|reflexivity].
    apply in_or_app. right. now left.
  - rewrite lookup_insert_ne by exact Hne.
    apply in_app_or in Hin as [Hin|[Heq|[]]]; [|congruence].
    destruct (IH Hin) as (n' & Hin' & Hn'). exists n'.
    split; [apply in_or_app; now left|exact Hn'].
Qed.

Lemma items_lookup_In (items : list (string * string)) (n i : string) :
  List.NoDup (List.map fst items) ->
  ((list_to_map items : gmap string string) !! n = Some i <-> In (n, i) items).
Proof.
  intros Hnd. induction items as [|[n0 i0] items IH]; simpl.
  - rewrite lookup_empty. split; [discriminate|intros []].
  - inversion Hnd as [|? ? Hnot Hnd']; subst.
    destruct (decide (n0 = n)) as [->|Hne].
    + rewrite lookup_insert_eq. split.
      * intros H. injection H as ->. now left.
      * intros [H|H]; [congruence|]. exfalso. apply Hnot.
        change n with (fst (n, i)). now apply in_map.
    + rewrite lookup_insert_ne by exact Hne. rewrite (IH Hnd').
      split; [now right|]. intros [H|H]; [congruence|exact H].
Qed.

Section LabelFacts.

Context {R : Type}.
Variable gsvc : GroupService R.

Lemma init_Ok_inv (r : R) (db : option Database) (lf : option LabelFilter)
    (g : Google R) :
  init gsvc r db lf = Ok g ->
  exists groups r',
    contactGroups_list gsvc r = (Ok groups, r') /\
    g = {| labelFilter := default {| include := []; exclude := [] |} lf;
           database := db; apiRequests := 1;
           labelMapping := list_to_map (label_items groups);
           reverseLabelMapping := reverse_items (label_items groups);
           contacts := []; dataAlreadyFetched := false;
           createdContacts := []; log := []; remote := r' |}.
Proof.
  unfold init, getLabelMapping. simpl.
  destruct (contactGroups_list gsvc r) as [[groups|e] r']; simpl;
    [|discriminate].
  intros H. injection H as <-. eauto.
Qed.

Lemma named_nonempty (n : string) (groups : list ContactGroup.t) :
  is_Some (last (named n groups)) <->
  exists group, In group groups /\ allowed_group group = true /\
                ContactGroup.name group = n.
Proof.
  unfold named. split.
  - intros [group Hl]. exists group.
    assert (Hin : In group (List.filter
              (fun group => allowed_group group
                            && String.eqb (ContactGroup.name group) n) groups)).
    { apply list_elem_of_In, last_Some_elem_of, Hl. }
    apply filter_In in Hin as [Hin Hp].
    apply andb_true_iff in Hp as [Ha Hn]. apply String.eqb_eq in Hn. auto.
  - intros (group & Hin & Ha & Hn).
    destruct (List.filter _ groups) as [|x l] eqn:E.
    + exfalso. assert (H : In group []); [|destruct H].
      rewrite <- E. apply filter_In. split; [exact Hin|].
      rewrite Ha, Hn, String.eqb_refl. reflexivity.
    + apply last_is_Some. discriminate.
Qed.

End LabelFacts.

Lemma split_second (c : ascii) (s : string) :
  has_char c s = true -> exists a b rest, split c s = a :: b :: rest.
Proof.
  induction s as [|x s IH]; simpl; [discriminate|].
  destruct (Ascii.eqb x c); simpl.
  - intros _. destruct (split_head c s) as [rest ->]. eauto.
  - intros H. destruct (IH H) as (a & b & rest & ->). eauto.
Qed.

(** A mapped label id that has a ['/'] resolves to its name. *)
Lemma getLabelName_mapped {R : Type} (g : Google R) (id n : string) :
  reverseLabelMapping g !! id = Some n ->
  has_char "/" id = true ->
  getLabelName g id = Ok n.
Proof.
  intros Hm Hs. unfold getLabelName.
  destruct (split_second _ _ Hs) as (a & b & rest & ->). simpl.
  rewrite Hm. reflexivity.
Qed.

(** X1: the construction of the adapter.  When the listing of the contact
    groups is answered, the adapter starts with one counted request, an
    empty cache that is not marked as fetched, the given filter (the empty
    one by default) and a label mapping that maps a name to the resource
    name of the last listed group of that name among the user groups and
    the groups named myContacts or starred; no other group is mapped.
    When the listing is refused, so is the construction. *)
Theorem init_label_mapping {R : Type} (gsvc : GroupService R) (r : R)
    (databaseHandler : option Database) (lf : option LabelFilter) :
  (forall groups r',
     contactGroups_list gsvc r = (Ok groups, r') ->
     exists g,
       init gsvc r databaseHandler lf = Ok g
       /\ apiRequests g = 1 /\ remote g = r' /\ contacts g = []
       /\ dataAlreadyFetched g = false /\ log g = []
       /\ database g = databaseHandler
       /\ labelFilter g = default {| include := []; exclude := [] |} lf
       /\ (forall n, labelMapping g !! n
                     = ContactGroup.resourceName <$> last (named n groups))
       /\ (forall n, is_Some (labelMapping g !! n) <->
                     exists group, In group groups
                                   /\ allowed_group group = true
                                   /\ ContactGroup.name group = n))
  /\ (forall e r',
        contactGroups_list gsvc r = (Raise e, r') ->
        init gsvc r databaseHandler lf = Raise e).
Proof.
  split.
  - intros groups r' Hl. unfold init, getLabelMapping. simpl. rewrite Hl.
    eexists. split; [reflexivity|]. simpl.
    repeat (split; [reflexivity|]).
    split; [apply label_items_lookup|].
    intros n. rewrite label_items_lookup, <- named_nonempty.
    apply fmap_is_Some.
  - intros e r' Hl. unfold init, getLabelMapping. simpl. rewrite Hl.
    reflexivity.
Qed.

(** The sample account: the two user groups and the two allowed system
    groups are mapped, the system group family is not. *)
Lemma init_label_mapping_witness :
  labelMapping SampleGroups.constructed !! "Friends"
  = Some "contactGroups/1a2b"
  /\ labelMapping SampleGroups.constructed !! "starred"
     = Some "contactGroups/starred"
  /\ labelMapping SampleGroups.constructed !! "family" = None.
Proof.
  destruct (init_label_mapping SampleGroups.account [] None None) as [H _].
  destruct (H SampleGroups.groups [PStr "list"] eq_refl)
    as (g & Hg & _ & _ & _ & _ & _ & _ & _ & Hm & _).
  unfold SampleGroups.constructed. rewrite Hg.
  rewrite !Hm. repeat split.
Defined.

(** X2: the two mappings of a constructed adapter agree.  Whatever the
    reverse mapping gives for an id is a name that the label mapping sends
    to that id; and when no two names are mapped to the same id, the
    reverse mapping inverts the label mapping, so that [getLabelName]
    gives back the name of every mapped id that has a ['/']. *)
Theorem init_reverse_mapping {R : Type} (gsvc : GroupService R) (r : R)
    (databaseHandler : option Database) (lf : option LabelFilter)
    (g : Google R) :
  init gsvc r databaseHandler lf = Ok g ->
  (forall id n, reverseLabelMapping g !! id = Some n ->
                labelMapping g !! n = Some id)
  /\ ((forall n n' id, labelMapping g !! n = Some id ->
                       labelMapping g !! n' = Some id -> n = n') ->
      forall n id,
        labelMapping g !! n = Some id ->
        reverseLabelMapping g !! id = Some n
        /\ (has_char "/" id = true -> getLabelName g id = Ok n)).
Proof.
  intros Hinit. apply init_Ok_inv in Hinit as (groups & r' & _ & ->). simpl.
  pose proof (label_items_NoDup groups) as Hnd.
  split.
  - intros id n Hr. apply items_lookup_In; [exact Hnd|].
    unfold reverse_items in Hr.
    destruct (reverse_fold_cases (label_items groups) ∅ id)
      as [H|(n' & Hin & H)]; rewrite H in Hr.
    + rewrite lookup_empty in Hr. discriminate.
    + injection Hr as <-. exact Hin.
  - intros Hinj n id Hm.
    assert (Hr : reverse_items (label_items groups) !! id = Some n).
    { apply items_lookup_In in Hm; [|exact Hnd].
      destruct (reverse_fold_In _ ∅ _ _ Hm) as (n' & Hin' & Hn').
      apply items_lookup_In in Hin'; [|exact Hnd].
      rewrite (Hinj n n' id); [exact Hn'| |exact Hin'].
      apply items_lookup_In; assumption. }
    split; [exact Hr|]. intros Hs. apply getLabelName_mapped; assumption.
Qed.

(** On the sample account the id of Friends resolves back to Friends. *)
Lemma init_reverse_mapping_witness :
  getLabelName SampleGroups.constructed "contactGroups/1a2b" = Ok "Friends".
Proof.
  destruct (init_reverse_mapping SampleGroups.account [] None None
              SampleGroups.constructed eq_refl) as [_ H].
  refine (proj2 (H _ "Friends" "contactGroups/1a2b" eq_refl) eq_refl).
  intros n n' id.
  change (labelMapping SampleGroups.constructed)
    with (list_to_map (label_items SampleGroups.groups) : gmap string string).
  rewrite !(items_lookup_In _ _ _ (label_items_NoDup SampleGroups.groups)).
  cbv. intuition congruence.
Defined.

(** ** [createLabel], [getLabelId] and [deleteLabel] *)



Section LabelOperations.

Context {R : Type}.
Variable gsvc : GroupService R.
Variable py_str : pyval -> string.

Lemma createLabel_cases (g g1 : Google R) (labelName id : string) :
  createLabel gsvc g labelName = (g1, Ok id) ->
  (labelMapping g !! labelName = Some id /\ g1 = g)
  \/ (labelMapping g !! labelName = None /\
      exists r', g1 = with_labelMapping (<[labelName := id]> (labelMapping g))
                        (count_request (with_remote r' g))).
Proof.
  unfold createLabel. destruct (labelMapping g !! labelName) as [id'|] eqn:Hm.
  - intros H. injection H as <- <-. now left.
  - destruct (contactGroups_create gsvc labelName (remote g))
      as [[resourceName|e] r']; [|discriminate].
    intros H. injection H as <- <-. right. eauto.
Qed.

End LabelOperations.

(** X4: [createLabel] is idempotent.  After a call that returned an id, the
    name is mapped to that id, every other name is mapped as before, and a
    second call for the name returns the same id without a request and
    without changing the adapter. *)
Theorem createLabel_idempotent {R : Type} (gsvc : GroupService R)
    (g g1 : Google R) (labelName id : string) :
  createLabel gsvc g labelName = (g1, Ok id) ->
  labelMapping g1 !! labelName = Some id
  /\ (forall other, other <> labelName ->
                    labelMapping g1 !! other = labelMapping g !! other)
  /\ createLabel gsvc g1 labelName = (g1, Ok id).
Proof.
  intros H. destruct (createLabel_cases gsvc g g1 labelName id H)
    as [[Hm ->]|(Hm & r' & ->)].
  - split; [exact Hm|]. split; [reflexivity|exact H].
  - cbn [labelMapping with_labelMapping count_request with_remote].
    split; [apply lookup_insert_eq|]. split.
    + intros other Hne. apply lookup_insert_ne. congruence.
    + unfold createLabel.
      cbn [labelMapping with_labelMapping count_request with_remote].
      rewrite lookup_insert_eq. reflexivity.
Qed.

Lemma createLabel_idempotent_witness :
  let g1 := fst (createLabel SampleGroups.account SampleGroups.constructed
                   "Club") in
  createLabel SampleGroups.account g1 "Club"
  = (g1, Ok "contactGroups/new-Club").
Proof.
  apply (createLabel_idempotent SampleGroups.account
           SampleGroups.constructed). reflexivity.
Defined.

(** X5: [createLabel] never touches the reverse mapping, the cache or the
    log.  A label created in this run is therefore found by its name, but
    its id is resolved by [getLabelName] as before the creation: to the
    local part of the id when the id was not mapped. *)
Theorem createLabel_leaves_reverse_mapping {R : Type} (gsvc : GroupService R)
    (g g1 : Google R) (labelName : string) (out : outcome string) :
  createLabel gsvc g labelName = (g1, out) ->
  reverseLabelMapping g1 = reverseLabelMapping g
  /\ contacts g1 = contacts g
  /\ log g1 = log g
  /\ (forall labelString,
        getLabelName g1 labelString = getLabelName g labelString).
Proof.
  intros H.
  assert (Hr : reverseLabelMapping g1 = reverseLabelMapping g
               /\ contacts g1 = contacts g /\ log g1 = log g).
  { unfold createLabel in H. destruct (labelMapping g !! labelName).
    - injection H as <- _. auto.
    - destruct (contactGroups_create gsvc labelName (remote g))
        as [[resourceName|e] r']; injection H as <- _; auto. }
  destruct Hr as (Hr & Hc & Hl). repeat split; try assumption.
  intros labelString. unfold getLabelName. rewrite Hr. reflexivity.
Qed.

(** The created label Club is found by name and not by id. *)
Lemma createLabel_leaves_reverse_mapping_witness :
  let g1 := fst (createLabel SampleGroups.account SampleGroups.constructed
                   "Club") in
  labelMapping g1 !! "Club" = Some "contactGroups/new-Club"
  /\ getLabelName g1 "contactGroups/new-Club" = Ok "new-Club".
Proof.
  split; [reflexivity|].
  destruct (createLabel_leaves_reverse_mapping SampleGroups.account
              SampleGroups.constructed
              (fst (createLabel SampleGroups.account SampleGroups.constructed
                      "Club"))
              "Club" (Ok "contactGroups/new-Club") eq_refl)
    as (_ & _ & _ & H).
  rewrite H. reflexivity.
Defined.

(** X6: [deleteLabel] is a soft operation that forgets nothing locally.
    A refused request adds exactly one record to the log, a warning with
    the reason, is not counted, and the call returns; an answered request
    is counted, and adds one warning to the log when the answer is not
    empty and nothing when it is.  In every case the label mapping, the
    reverse mapping and the cache are as before, so the name of a deleted
    label still resolves to its id. *)
Theorem deleteLabel_soft {R : Type} (gsvc : GroupService R)
    (py_str : pyval -> string) (g : Google R) (groupId : string) :
  labelMapping (fst (deleteLabel gsvc py_str g groupId)) = labelMapping g
  /\ reverseLabelMapping (fst (deleteLabel gsvc py_str g groupId))
     = reverseLabelMapping g
  /\ contacts (fst (deleteLabel gsvc py_str g groupId)) = contacts g
  /\ (forall reason r',
        contactGroups_delete gsvc groupId (remote g)
        = (Raise (HttpError reason), r') ->
        snd (deleteLabel gsvc py_str g groupId) = Ok tt
        /\ log (fst (deleteLabel gsvc py_str g groupId))
           = log g ++ [(Warning,
                        "Failed to delete Google contact group. Reason: "
                        +:+ reason)]
        /\ apiRequests (fst (deleteLabel gsvc py_str g groupId))
           = apiRequests g
        /\ remote (fst (deleteLabel gsvc py_str g groupId)) = r')
  /\ (forall response r',
        contactGroups_delete gsvc groupId (remote g) = (Ok response, r') ->
        snd (deleteLabel gsvc py_str g groupId) = Ok tt
        /\ log (fst (deleteLabel gsvc py_str g groupId))
           = log g
             ++ (if truthy response
                 then [(Warning,
                        "Non-empty response received, please check carefully: "
                        +:+ py_str response)]
                 else [])
        /\ apiRequests (fst (deleteLabel gsvc py_str g groupId))
           = S (apiRequests g)
        /\ remote (fst (deleteLabel gsvc py_str g groupId)) = r').
Proof.
  unfold deleteLabel.
  destruct (contactGroups_delete gsvc groupId (remote g))
    as [[response|e] r'].
  - split_conj; try (destruct (truthy response); reflexivity).
    + intros reason r0 H. discriminate.
    + intros response0 r0 H. injection H as <- <-.
      destruct (truthy response); simpl; split_conj;
        rewrite ?app_nil_r; reflexivity.
  - split_conj; try (destruct e; reflexivity).
    + intros reason r0 H. injection H as -> <-. split_conj; reflexivity.
    + intros response r0 H. discriminate.
Qed.

(** Deleting the group Work on the sample account: refused, answered with
    an empty response, and answered with a response that is not empty. *)
Lemma deleteLabel_soft_witness :
  (snd (deleteLabel SampleGroups.refusing Sample.str SampleGroups.constructed
          "contactGroups/3c4d") = Ok tt
   /\ log (fst (deleteLabel SampleGroups.refusing Sample.str
                  SampleGroups.constructed "contactGroups/3c4d"))
      = [(Warning,
          "Failed to delete Google contact group. Reason: Quota exceeded")]
   /\ apiRequests (fst (deleteLabel SampleGroups.refusing Sample.str
                          SampleGroups.constructed "contactGroups/3c4d"))
      = 1)
  /\ (log (fst (deleteLabel SampleGroups.account Sample.str
                  SampleGroups.constructed "contactGroups/3c4d")) = []
      /\ apiRequests (fst (deleteLabel SampleGroups.account Sample.str
                             SampleGroups.constructed "contactGroups/3c4d"))
         = 2
      /\ labelMapping (fst (deleteLabel SampleGroups.account Sample.str
                              SampleGroups.constructed "contactGroups/3c4d"))
         !! "Work" = Some "contactGroups/3c4d")
  /\ log (fst (deleteLabel
                 (SampleGroups.recording
                    (fun _ => Ok SampleGroups.groups)
                    (fun _ _ => Ok None)
                    (fun _ _ => Ok (PStr "deleted")))
                 Sample.str SampleGroups.constructed "contactGroups/3c4d"))
     = [(Warning,
         "Non-empty response received, please check carefully: deleted")].
Proof.
  destruct (deleteLabel_soft SampleGroups.refusing Sample.str
              SampleGroups.constructed "contactGroups/3c4d")
    as (_ & _ & _ & Hr & _).
  destruct (deleteLabel_soft SampleGroups.account Sample.str
              SampleGroups.constructed "contactGroups/3c4d")
    as (Hm & _ & _ & _ & Ha).
  destruct (deleteLabel_soft
              (SampleGroups.recording
                 (fun _ => Ok SampleGroups.groups)
                 (fun _ _ => Ok None)
                 (fun _ _ => Ok (PStr "deleted")))
              Sample.str SampleGroups.constructed "contactGroups/3c4d")
    as (_ & _ & _ & _ & Hn).
  split; [|split].
  - destruct (Hr "Quota exceeded" [PStr "list"; PStr "contactGroups/3c4d"]
                eq_refl) as (H1 & H2 & H3 & _).
    rewrite H1, H2, H3. repeat split.
  - destruct (Ha (PStr "") [PStr "list"; PStr "contactGroups/3c4d"] eq_refl)
      as (_ & H2 & H3 & _).
    rewrite H2, H3, Hm. repeat split.
  - destruct (Hn (PStr "deleted") [PStr "list"; PStr "contactGroups/3c4d"]
                eq_refl) as (_ & H2 & _).
    rewrite H2. reflexivity.
Defined.

(** ** [removeContactFromList] *)

Lemma pyval_nested_ind (P : pyval -> Prop) :
  P PNone -> (forall b, P (PBool b)) -> (forall n, P (PInt n)) ->
  (forall s, P (PStr s)) ->
  (forall xs, each P xs -> P (PList xs)) ->
  (forall d, each_value P d -> P (PDict d)) ->
  forall v, P v.
Proof.
  intros HN HB HI HS HL HD.
  exact (fix F (v : pyval) : P v :=
           match v with
           | PNone => HN
           | PBool b => HB b
           | PInt n => HI n
           | PStr s => HS s
           | PList xs =>
               HL xs ((fix G (xs : list pyval) : each P xs :=
                         match xs with
                         | [] => I
                         | x :: r => conj (F x) (G r)
                         end) xs)
           | PDict d =>
               HD d ((fix G (d : pydict) : each_value P d :=
                        match d with
                        | [] => I
                        | (k, v) :: r => conj (F v) (G r)
                        end) d)
           end).
Qed.

Lemma assoc_In_NoDup (d : pydict) (k : string) (v : pyval) :
  List.NoDup (List.map fst d) -> In (k, v) d -> assoc k d = Some v.
Proof.
  induction d as [|[k' v'] d IH]; simpl; [intros _ []|].
  intros Hnd Hin. inversion Hnd as [|? ? Hnot Hnd']; subst.
  destruct Hin as [Heq|Hin].
  - injection Heq as -> ->. now rewrite String.eqb_refl.
  - destruct (String.eqb_spec k k') as [->|Hne]; [|apply IH; assumption].
    exfalso. apply Hnot. change k' with (fst (k', v)). now apply in_map.
Qed.

(** A JSON value with distinct keys in its dicts equals itself. *)
Lemma py_eq_refl (v : pyval) : distinct_keys v -> py_eq v v = true.
Proof.
  induction v as [| b | n | s | xs IH | d IH] using pyval_nested_ind; simpl.
  - reflexivity.
  - intros _. now destruct b.
  - intros _. apply Z.eqb_refl.
  - intros _. apply String.eqb_refl.
  - induction xs as [|x xs IHxs]; simpl; [reflexivity|].
    destruct IH as [Hx IH]. intros [Dx Dxs].
    rewrite (Hx Dx), (IHxs IH Dxs). reflexivity.
  - intros [Hnd Hd]. rewrite Nat.eqb_refl. simpl.
    assert (H : forall d',
               (forall k v, In (k, v) d' -> assoc k d = Some v) ->
               each_value (fun v => distinct_keys v -> py_eq v v = true) d' ->
               each_value distinct_keys d' ->
               entries_in py_eq d d' = true).
    { induction d' as [|[k v] d' IHd']; simpl; [reflexivity|].
      intros Hin [Hv Hrest] [Dv Drest].
      rewrite (Hin k v (or_introl eq_refl)), (Hv Dv). simpl.
      apply IHd'; [|assumption|assumption].
      intros k' v' H'. apply Hin. now right. }
    apply H; [|exact IH|exact Hd].
    intros k v Hin. apply assoc_In_NoDup; assumption.
Qed.

Lemma list_remove_None (x : pyval) (l : list pyval) :
  list_remove x l = None <-> Forall (fun y => py_eq y x = false) l.
Proof.
  induction l as [|y l IH]; simpl.
  - split; [constructor|reflexivity].
  - destruct (py_eq y x) eqn:E.
    + split; [discriminate|]. intros H. inversion H; congruence.
    + destruct (list_remove x l) as [r|].
      * split; [discriminate|]. intros H. inversion H as [|? ? _ Hl]; subst.
        apply IH in Hl. discriminate.
      * split; [|reflexivity]. intros _. constructor; [exact E|].
        now apply IH.
Qed.

Lemma list_remove_Some (x : pyval) (l rest : list pyval) :
  list_remove x l = Some rest ->
  exists pre y post,
    l = pre ++ y :: post /\ Forall (fun z => py_eq z x = false) pre /\
    py_eq y x = true /\ rest = pre ++ post.
Proof.
  revert rest. induction l as [|y l IH]; simpl; intros rest; [discriminate|].
  destruct (py_eq y x) eqn:E.
  - intros H. injection H as <-. exists [], y, l. repeat split; auto.
  - destruct (list_remove x l) as [r|]; [|discriminate].
    intros H. injection H as <-.
    destruct (IH r eq_refl) as (pre & z & post & -> & Hpre & Hz & ->).
    exists (y :: pre), z, post. repeat split; auto.
Qed.

(** X7: [removeContactFromList] removes the first cached contact that
    equals the given one and nothing else: the contacts before and after
    it keep their places and every other attribute is as before.  It fails
    (the ValueError of [list.remove]) exactly when no cached contact equals
    the given one, and then nothing has changed.  A contact that is in the
    cache, with distinct keys in its dicts, is always removed, and the
    cache is shorter by one. *)
Theorem removeContactFromList_first_equal {R : Type} (g : Google R)
    (googleContact : pyval) :
  (removeContactFromList g googleContact = None <->
   Forall (fun c => py_eq c googleContact = false) (contacts g))
  /\ (forall g',
        removeContactFromList g googleContact = Some g' ->
        exists pre c post,
          contacts g = pre ++ c :: post
          /\ Forall (fun c' => py_eq c' googleContact = false) pre
          /\ py_eq c googleContact = true
          /\ g' = with_contacts (pre ++ post) g)
  /\ (In googleContact (contacts g) -> distinct_keys googleContact ->
      exists g',
        removeContactFromList g googleContact = Some g'
        /\ length (contacts g) = S (length (contacts g'))).
Proof.
  unfold removeContactFromList. split; [|split].
  - rewrite <- list_remove_None.
    destruct (list_remove googleContact (contacts g)); split;
      intros; congruence.
  - intros g'.
    destruct (list_remove googleContact (contacts g)) as [rest|] eqn:E;
      [|discriminate].
    intros H. injection H as <-.
    destruct (list_remove_Some _ _ _ E) as (pre & c & post & Hc & Hp & He & ->).
    exists pre, c, post. auto.
  - intros Hin Hd.
    destruct (list_remove googleContact (contacts g)) as [rest|] eqn:E.
    + eexists. split; [reflexivity|]. simpl.
      destruct (list_remove_Some _ _ _ E) as (pre & c & post & -> & _ & _ & ->).
      rewrite !length_app. simpl. lia.
    + exfalso. apply list_remove_None in E.
      rewrite List.Forall_forall in E. specialize (E _ Hin).
      rewrite (py_eq_refl _ Hd) in E. discriminate.
Qed.

(** Removing [bob] from a cache of three, and a contact that is not in
    it. *)
Lemma removeContactFromList_first_equal_witness :
  (contacts <$> removeContactFromList
     (Sample.adapter Sample.no_filter [Sample.ann; Sample.bob; Sample.cid])
     Sample.bob) = Some [Sample.ann; Sample.cid]
  /\ removeContactFromList
       (Sample.adapter Sample.no_filter [Sample.ann; Sample.cid]) Sample.bob
     = None.
Proof.
  destruct (removeContactFromList_first_equal
              (Sample.adapter Sample.no_filter
                 [Sample.ann; Sample.bob; Sample.cid]) Sample.bob)
    as (_ & _ & Hin).
  destruct (removeContactFromList_first_equal
              (Sample.adapter Sample.no_filter [Sample.ann; Sample.cid])
              Sample.bob) as (Hnone & _ & _).
  split.
  - destruct Hin as (g' & Hg' & _).
    + simpl. auto.
    + vm_compute. repeat constructor; simpl; intuition discriminate.
    + reflexivity.
  - apply Hnone. repeat constructor.
Defined.

(** ** [getContact] and the cache *)

Lemma filterM_app {A} (p : A -> outcome bool) (l1 l2 : list A) :
  filterM p (l1 ++ l2)
  = let* a := filterM p l1 in let* b := filterM p l2 in Ok (a ++ b).
Proof.
  induction l1 as [|x l1 IH]; simpl.
  - destruct (filterM p l2); reflexivity.
  - destruct (p x) as [b|e]; simpl; [|reflexivity]. rewrite IH.
    destruct (filterM p l1) as [a|e]; simpl; [|reflexivity].
    destruct (filterM p l2) as [c|e]; simpl; [|reflexivity].
    destruct b; reflexivity.
Qed.

Lemma filterM_none {A} (p : A -> outcome bool) (l : list A) :
  Forall (fun x => p x = Ok false) l -> filterM p l = Ok [].
Proof.
  induction 1 as [|x l Hx _ IH]; simpl; [reflexivity|].
  rewrite Hx, IH. reflexivity.
Qed.

Lemma filterM_total {A} (p : A -> outcome bool) (l : list A) :
  Forall (fun x => exists b, p x = Ok b) l -> exists r, filterM p l = Ok r.
Proof.
  induction 1 as [|x l [b Hx] _ [r IH]]; simpl; [eauto|].
  rewrite Hx, IH. simpl. eauto.
Qed.

Section CacheFacts.

Context {R : Type}.
Variable svc : Service R.
Variable py_str : pyval -> string.
Variable exn_str : exn -> string.

Lemma cached_filterM (g : Google R) (id : string) :
  cached py_str g id = filterM (matches py_str id) (contacts g).
Proof. unfold cached. destruct (contacts g); reflexivity. Qed.

Lemma cached_after_append (g g' : Google R) (id : string) (c rn : pyval) :
  cached py_str g id = Ok [] ->
  getitem c "resourceName" = Ok rn -> py_str rn = id ->
  contacts g' = contacts g ++ [c] ->
  cached py_str g' id = Ok [c].
Proof.
  intros Hc Hrn Hid Hg'. rewrite cached_filterM in *.
  rewrite Hg', filterM_app, Hc. simpl. unfold matches at 1.
  rewrite Hrn. simpl. rewrite Hid, String.eqb_refl. reflexivity.
Qed.

Lemma getContact_body_frame (g g1 : Google R) (id : string)
    (out : outcome pyval) :
  getContact_body svc py_str g id = (g1, out) ->
  log g1 = log g
  /\ match out with
     | Ok _ => True
     | Raise _ => contacts g1 = contacts g
     end.
Proof.
  unfold getContact_body.
  destruct (cached py_str g id) as [[|c l]|e].
  - destruct (people_get svc (get_parameters id) (remote g))
      as [[result|e] r'].
    + destruct (let* kept := filterContactsByLabel
                               (labelFilter (count_request (with_remote r' g)))
                               [result] in first kept) as [c|e];
        intros H; injection H as <- <-; auto.
    + intros H; injection H as <- <-; auto.
  - intros H; injection H as <- <-; auto.
  - intros H; injection H as <- <-; auto.
Qed.

End CacheFacts.

(** X8: a fetch that the cache can answer.  When the first cached contact
    whose resource name reads as the id is [c], and every cached contact
    has a resource name, [getContact] returns [c] without a request, a log
    record or any other change. *)
Theorem getContact_cache_hit {R : Type} (svc : Service R)
    (py_str : pyval -> string) (exn_str : exn -> string) (g : Google R)
    (id : string) (pre post : list pyval) (c : pyval) :
  contacts g = pre ++ c :: post ->
  Forall (fun c' => matches py_str id c' = Ok false) pre ->
  matches py_str id c = Ok true ->
  Forall has_resourceName post ->
  getContact svc py_str exn_str g id = (g, Ok c).
Proof.
  intros Hc Hpre Hm Hpost.
  destruct (filterM_total (matches py_str id) post) as [more Hmore].
  { eapply List.Forall_impl; [|exact Hpost].
    intros c' [rn Hrn]. unfold matches. rewrite Hrn. simpl. eauto. }
  apply (getContact_cached svc py_str exn_str g id c more).
  rewrite cached_filterM, Hc, filterM_app, (filterM_none _ _ Hpre). simpl.
  rewrite Hm, Hmore. reflexivity.
Qed.

Lemma getContact_cache_hit_witness :
  getContact (Sample.answering Sample.cid) Sample.str Sample.exn_text
    (Sample.adapter Sample.no_filter [Sample.ann; Sample.bob; Sample.cid])
    "people/c2"
  = (Sample.adapter Sample.no_filter [Sample.ann; Sample.bob; Sample.cid],
     Ok Sample.bob).
Proof.
  apply (getContact_cache_hit _ _ _ _ _ [Sample.ann] [Sample.cid]).
  - reflexivity.
  - repeat constructor.
  - reflexivity.
  - repeat constructor. eexists. reflexivity.
Defined.

(** X9: one cached contact without a [resourceName] entry makes every
    fetch fail, whatever the id: when the contacts before it have a
    resource name, the lookup ends in the key error, no request is sent,
    and the fetch fails with the error-level "Failed to fetch" message. *)
Theorem getContact_cache_without_resourceName {R : Type} (svc : Service R)
    (py_str : pyval -> string) (exn_str : exn -> string) (g : Google R)
    (id : string) (pre post : list pyval) (d : pydict) :
  contacts g = pre ++ PDict d :: post ->
  Forall has_resourceName pre ->
  assoc "resourceName" d = None ->
  getContact svc py_str exn_str g id
  = (logged Error
       (fetch_failed id (exn_str (KeyError (PStr "resourceName")))) g,
     Raise (PyException
              (fetch_failed id (exn_str (KeyError (PStr "resourceName")))))).
Proof.
  intros Hc Hpre Hd.
  assert (Hl : cached py_str g id = Raise (KeyError (PStr "resourceName"))).
  { rewrite cached_filterM, Hc. apply filterM_first_raise.
    - eapply List.Forall_impl; [|exact Hpre].
      intros c' [rn Hrn]. unfold matches. rewrite Hrn. simpl. eauto.
    - unfold matches. simpl. rewrite Hd. reflexivity. }
  unfold getContact, getContact_body. rewrite Hl. reflexivity.
Qed.

Lemma getContact_cache_without_resourceName_witness :
  snd (getContact (Sample.answering Sample.cid) Sample.str Sample.exn_text
         (Sample.adapter Sample.no_filter
            [Sample.ann; PDict [("etag", PStr "x")]])
         "people/c1")
  = Raise (PyException
             "Failed to fetch Google contact 'people/c1': 'resourceName'").
Proof.
  rewrite (getContact_cache_without_resourceName _ _ _ _ _ [Sample.ann] []
             [("etag", PStr "x")]).
  - reflexivity.
  - reflexivity.
  - repeat constructor. eexists. reflexivity.
  - reflexivity.
Defined.

(** X10: a fetched contact is served from the cache afterwards.  After a
    fetch of an uncached id that the remote side answers with a contact
    that passes the filter and whose resource name reads as the id, the
    request is counted once and a second fetch of the id returns the same
    contact without any change to the adapter. *)
Theorem getContact_twice {R : Type} (svc : Service R)
    (py_str : pyval -> string) (exn_str : exn -> string) (g : Google R)
    (id : string) (result rn : pyval) (r' : R) :
  cached py_str g id = Ok [] ->
  people_get svc (get_parameters id) (remote g) = (Ok result, r') ->
  filterContactsByLabel (labelFilter g) [result] = Ok [result] ->
  getitem result "resourceName" = Ok rn -> py_str rn = id ->
  exists g',
    getContact svc py_str exn_str g id = (g', Ok result)
    /\ apiRequests g' = S (apiRequests g)
    /\ contacts g' = contacts g ++ [result]
    /\ getContact svc py_str exn_str g' id = (g', Ok result).
Proof.
  intros Hc Hreq Hf Hrn Hid. eexists.
  split; [exact (getContact_kept svc py_str exn_str g id result result [] r'
                   Hc Hreq Hf)|].
  split; [reflexivity|]. split; [reflexivity|].
  apply (getContact_cached svc py_str exn_str _ id result []).
  eapply cached_after_append; [exact Hc|exact Hrn|exact Hid|reflexivity].
Qed.

Lemma getContact_twice_witness :
  exists g',
    getContact (Sample.answering Sample.cid) Sample.str Sample.exn_text
      (Sample.adapter Sample.no_filter [Sample.ann]) "people/c3"
    = (g', Ok Sample.cid)
    /\ apiRequests g' = 2
    /\ getContact (Sample.answering Sample.cid) Sample.str Sample.exn_text
         g' "people/c3" = (g', Ok Sample.cid).
Proof.
  destruct (getContact_twice (Sample.answering Sample.cid) Sample.str
              Sample.exn_text (Sample.adapter Sample.no_filter [Sample.ann])
              "people/c3" Sample.cid (PStr "people/c3")
              [PDict (get_parameters "people/c3")])
    as (g' & H1 & H2 & _ & H3); try reflexivity.
  exists g'. auto.
Defined.

(** X11: a created contact is served from the cache afterwards.  After a
    [createContact] that returned the created record, a fetch of the id
    the record's resource name reads as, which no contact cached before
    matched, returns the record without a request. *)
Theorem createContact_then_getContact {R : Type} (svc : Service R)
    (py_str : pyval -> string) (exn_str : exn -> string) (g g' : Google R)
    (data result rn : pyval) (id : string) (r' : R) :
  people_createContact svc syncFields data (remote g) = (Ok result, r') ->
  createContact svc py_str g data = (g', Ok result) ->
  cached py_str g id = Ok [] ->
  getitem result "resourceName" = Ok rn -> py_str rn = id ->
  getContact svc py_str exn_str g' id = (g', Ok result).
Proof.
  intros Hreq Hcreate Hc Hrn Hid.
  destruct (createContact_appends svc py_str g g' data result result r'
              Hreq Hcreate) as [_ Happ].
  apply (getContact_cached svc py_str exn_str g' id result []).
  eapply cached_after_append; eassumption.
Qed.

Lemma createContact_then_getContact_witness :
  let g' := fst (createContact (Sample.answering Sample.cid) Sample.str
                   (Sample.adapter Sample.no_filter [Sample.ann])
                   Sample.cid) in
  getContact (Sample.answering Sample.cid) Sample.str Sample.exn_text g'
    "people/c3" = (g', Ok Sample.cid).
Proof.
  apply (createContact_then_getContact (Sample.answering Sample.cid)
           Sample.str Sample.exn_text
           (Sample.adapter Sample.no_filter [Sample.ann]) _ Sample.cid
           Sample.cid (PStr "people/c3") "people/c3" [Sample.cid]);
    reflexivity.
Defined.

(** X12: every failure of [getContact] is a plain exception whose message
    is the one record the call has logged, and it leaves the cache as it
    was; a successful fetch logs nothing. *)
Theorem getContact_failures_are_logged {R : Type} (svc : Service R)
    (py_str : pyval -> string) (exn_str : exn -> string) (g g' : Google R)
    (id : string) (out : outcome pyval) :
  getContact svc py_str exn_str g id = (g', out) ->
  match out with
  | Ok _ => log g' = log g
  | Raise e =>
      exists lvl msg,
        e = PyException msg
        /\ log g' = log g ++ [(lvl, msg)]
        /\ contacts g' = contacts g
  end.
Proof.
  unfold getContact.
  destruct (getContact_body svc py_str g id) as [g1 out1] eqn:Hb.
  destruct (getContact_body_frame svc py_str g g1 id out1 Hb) as [Hl Hc].
  destruct out1 as [c|e].
  - intros H. injection H as <- <-. exact Hl.
  - destruct e; intros H; injection H as <- <-;
      eexists _, _; (split; [reflexivity|]); simpl; rewrite Hl, Hc; auto.
Qed.

Lemma getContact_failures_are_logged_witness :
  log (fst (getContact (Sample.answering Sample.bob) Sample.str
              Sample.exn_text
              (Sample.adapter Sample.friends_not_spam [Sample.ann])
              "people/c2"))
  = [(Info, "Contact processing of 'people/c2' not allowed by label filter")].
Proof.
  pose proof (getContact_failures_are_logged (Sample.answering Sample.bob)
                Sample.str Sample.exn_text
                (Sample.adapter Sample.friends_not_spam [Sample.ann])
                _ "people/c2" _ eq_refl) as H.
  reflexivity.
Defined.

(** ** [createContact] and [updateContact], further *)

(** X13: the soft failure of [createContact] and [updateContact].  For a
    payload that has a first [names] element, a refused request makes the
    call return None; the log has grown by exactly one record, a warning
    that quotes that element and gives the reason; the request is not
    counted, and the cache and the ids marked as created are as before. *)
Theorem soft_failure_with_names {R : Type} (svc : Service R)
    (py_str : pyval -> string) (g : Google R) (data name : pyval)
    (reason : string) :
  name_entry data = Ok name ->
  (forall r',
     people_createContact svc syncFields data (remote g)
     = (Raise (HttpError reason), r') ->
     snd (createContact svc py_str g data) = Ok PNone
     /\ log (fst (createContact svc py_str g data))
        = log g ++ [(Warning,
                     "'" +:+ py_str name
                     +:+ "':Failed to create Google contact. Reason: "
                     +:+ reason)]
     /\ apiRequests (fst (createContact svc py_str g data)) = apiRequests g
     /\ contacts (fst (createContact svc py_str g data)) = contacts g
     /\ createdContacts (fst (createContact svc py_str g data))
        = createdContacts g
     /\ remote (fst (createContact svc py_str g data)) = r')
  /\ (forall rn r',
        getitem data "resourceName" = Ok rn ->
        people_updateContact svc rn updateFields data (remote g)
        = (Raise (HttpError reason), r') ->
        snd (updateContact svc py_str g data) = Ok PNone
        /\ log (fst (updateContact svc py_str g data))
           = log g ++ [(Warning,
                        "'" +:+ py_str name
                        +:+ "':Failed to update Google contact. Reason: "
                        +:+ reason)]
        /\ apiRequests (fst (updateContact svc py_str g data))
           = apiRequests g
        /\ contacts (fst (updateContact svc py_str g data)) = contacts g
        /\ createdContacts (fst (updateContact svc py_str g data))
           = createdContacts g
        /\ remote (fst (updateContact svc py_str g data)) = r').
Proof.
  intros Hname. split.
  - intros r' Hreq.
    rewrite (createContact_soft_failure svc py_str g data name reason r'
               Hreq Hname).
    split_conj; reflexivity.
  - intros rn r' Hrn Hreq.
    rewrite (updateContact_soft_failure svc py_str g data rn name reason r'
               Hrn Hreq Hname).
    split_conj; reflexivity.
Qed.

(** A create and an update of a contact named Eve that the remote side
    refuses. *)
Lemma soft_failure_with_names_witness :
  (snd (createContact Sample.refusing Sample.str
          (Sample.adapter Sample.no_filter [Sample.ann])
          (PDict [("names", PList [PStr "Eve"])])) = Ok PNone
   /\ log (fst (createContact Sample.refusing Sample.str
                  (Sample.adapter Sample.no_filter [Sample.ann])
                  (PDict [("names", PList [PStr "Eve"])])))
      = [(Warning,
          "'Eve':Failed to create Google contact. Reason: Quota exceeded")]
   /\ apiRequests (fst (createContact Sample.refusing Sample.str
                          (Sample.adapter Sample.no_filter [Sample.ann])
                          (PDict [("names", PList [PStr "Eve"])])))
      = 1
   /\ contacts (fst (createContact Sample.refusing Sample.str
                       (Sample.adapter Sample.no_filter [Sample.ann])
                       (PDict [("names", PList [PStr "Eve"])])))
      = [Sample.ann])
  /\ (snd (updateContact Sample.refusing Sample.str
             (Sample.adapter Sample.no_filter [Sample.ann])
             (PDict [("resourceName", PStr "people/c7");
                     ("names", PList [PStr "Eve"])])) = Ok PNone
      /\ log (fst (updateContact Sample.refusing Sample.str
                     (Sample.adapter Sample.no_filter [Sample.ann])
                     (PDict [("resourceName", PStr "people/c7");
                             ("names", PList [PStr "Eve"])])))
         = [(Warning,
             "'Eve':Failed to update Google contact. Reason: Quota exceeded")]).
Proof.
  destruct (soft_failure_with_names Sample.refusing Sample.str
              (Sample.adapter Sample.no_filter [Sample.ann])
              (PDict [("names", PList [PStr "Eve"])]) (PStr "Eve")
              "Quota exceeded" eq_refl) as [Hc _].
  destruct (soft_failure_with_names Sample.refusing Sample.str
              (Sample.adapter Sample.no_filter [Sample.ann])
              (PDict [("resourceName", PStr "people/c7");
                      ("names", PList [PStr "Eve"])]) (PStr "Eve")
              "Quota exceeded" eq_refl) as [_ Hu].
  split.
  - destruct (Hc [PDict [("names", PList [PStr "Eve"])]] eq_refl)
      as (H1 & H2 & H3 & H4 & _).
    rewrite H1, H2, H3, H4. repeat split.
  - destruct (Hu (PStr "people/c7")
                [PDict [("resourceName", PStr "people/c7");
                        ("names", PList [PStr "Eve"])]] eq_refl eq_refl)
      as (H1 & H2 & _).
    rewrite H1, H2. repeat split.
Defined.






(** X15: an update is not seen by later fetches.  A contact that
    [getContact] finds in the cache before an [updateContact] is the one it
    returns after it, whatever the payload and whatever the remote side
    answered: the updated record does not replace it. *)
Theorem updateContact_then_getContact_is_stale {R : Type} (svc : Service R)
    (py_str : pyval -> string) (exn_str : exn -> string) (g : Google R)
    (id : string) (c : pyval) (more : list pyval) (data : pyval) :
  cached py_str g id = Ok (c :: more) ->
  getContact svc py_str exn_str (fst (updateContact svc py_str g data)) id
  = (fst (updateContact svc py_str g data), Ok c).
Proof.
  intros Hc. apply (getContact_cached svc py_str exn_str _ id c more).
  rewrite cached_filterM, updateContact_contacts, <- cached_filterM.
  exact Hc.
Qed.

Lemma updateContact_then_getContact_is_stale_witness :
  snd (getContact (Sample.answering Sample.bob) Sample.str Sample.exn_text
         (fst (updateContact (Sample.answering Sample.bob) Sample.str
                 (Sample.adapter Sample.no_filter
                    [Sample.person "people/c2" []])
                 Sample.bob))
         "people/c2")
  = Ok (Sample.person "people/c2" []).
Proof.
  rewrite (updateContact_then_getContact_is_stale
             (Sample.answering Sample.bob) Sample.str Sample.exn_text
             (Sample.adapter Sample.no_filter [Sample.person "people/c2" []])
             "people/c2" (Sample.person "people/c2" []) [] Sample.bob eq_refl).
  reflexivity.
Defined.

Lemma py_eq_refl_hashable (v : pyval) : hashable v = true -> py_eq v v = true.
Proof.
  intros H. apply py_eq_refl. destruct v; try exact I; discriminate H.
Qed.

(** X16: the bookkeeping of a successful [createContact].  When the answer
    is a dict whose [names] entry is absent or starts with a dict, and its
    resource name can be a dict key, the answer is returned, the request is
    counted, the answer is the new last element of the cache, and the log
    has grown by one info record with the display name ("error" when the
    answer has none) and the id.  The id, which is the resource name of the
    answer or "-" when it has none, is a key of [createdContacts]
    afterwards: it is entered when no key equals it, and the dict is as
    before when one does. *)
Theorem createContact_success {R : Type} (svc : Service R)
    (py_str : pyval -> string) (g : Google R) (data : pyval) (d : pydict)
    (r' : R) (name : pyval) :
  people_createContact svc syncFields data (remote g) = (Ok (PDict d), r') ->
  let id := default (PStr "-") (assoc "resourceName" d) in
  hashable id = true ->
  (assoc "names" d = None /\ name = PStr "error")
  \/ (exists n rest,
        assoc "names" d = Some (PList (PDict n :: rest))
        /\ name = default (PStr "error") (assoc "displayName" n)) ->
  snd (createContact svc py_str g data) = Ok (PDict d)
  /\ apiRequests (fst (createContact svc py_str g data)) = S (apiRequests g)
  /\ contacts (fst (createContact svc py_str g data))
     = contacts g ++ [PDict d]
  /\ log (fst (createContact svc py_str g data))
     = log g ++ [(Info,
                  "'" +:+ py_str name +:+ "': Contact with id '"
                  +:+ py_str id +:+ "' created successfully")]
  /\ createdContacts (fst (createContact svc py_str g data))
     = (if existsb (fun key => py_eq key id) (createdContacts g)
        then createdContacts g
        else createdContacts g ++ [id])
  /\ existsb (fun key => py_eq key id)
       (createdContacts (fst (createContact svc py_str g data))) = true.
Proof.
  intros Hreq id Hh Hnames.
  assert (Hd : display_name (PDict d) = Ok name).
  { unfold display_name. simpl.
    destruct Hnames as [[Hn ->]|(n & rest & Hn & ->)]; rewrite Hn; reflexivity. }
  assert (Hc : createContact svc py_str g data
               = (logged Info (created_msg py_str name id)
                    (with_contacts (contacts g ++ [PDict d])
                       (mark_created id (count_request (with_remote r' g)))),
                  Ok (PDict d))).
  { unfold createContact. rewrite Hreq.
    change (get (PDict d) "resourceName" (PStr "-")) with (Ok id).
    cbv beta iota. rewrite Hd, Hh. reflexivity. }
  rewrite Hc. cbn [fst snd].
  split; [reflexivity|]. split; [reflexivity|]. split; [reflexivity|].
  split; [reflexivity|]. split; [reflexivity|].
  cbn [createdContacts logged with_contacts mark_created count_request
       with_remote].
  destruct (existsb (fun key => py_eq key id) (createdContacts g)) eqn:E;
    [exact E|].
  rewrite existsb_app, E. simpl.
  rewrite (py_eq_refl_hashable id Hh). reflexivity.
Qed.

(** A first creation, answered with [cid], and two creations in a row that
    are answered without a resource name: the id "-" is a key once. *)
Lemma createContact_success_witness :
  (snd (createContact (Sample.answering Sample.cid) Sample.str
          (Sample.adapter Sample.no_filter [Sample.ann]) Sample.cid)
   = Ok Sample.cid
   /\ apiRequests
        (fst (createContact (Sample.answering Sample.cid) Sample.str
                (Sample.adapter Sample.no_filter [Sample.ann]) Sample.cid))
      = 2
   /\ contacts
        (fst (createContact (Sample.answering Sample.cid) Sample.str
                (Sample.adapter Sample.no_filter [Sample.ann]) Sample.cid))
      = [Sample.ann; Sample.cid]
   /\ log (fst (createContact (Sample.answering Sample.cid) Sample.str
                  (Sample.adapter Sample.no_filter [Sample.ann]) Sample.cid))
      = [(Info, "'error': Contact with id 'people/c3' created successfully")]
   /\ createdContacts
        (fst (createContact (Sample.answering Sample.cid) Sample.str
                (Sample.adapter Sample.no_filter [Sample.ann]) Sample.cid))
      = [PStr "people/c3"])
  /\ createdContacts
       (fst (createContact (Sample.answering (PDict [])) Sample.str
               (fst (createContact (Sample.answering (PDict [])) Sample.str
                       (Sample.adapter Sample.no_filter []) (PDict [])))
               (PDict [])))
     = [PStr "-"].
Proof.
  split.
  - destruct (createContact_success (Sample.answering Sample.cid) Sample.str
                (Sample.adapter Sample.no_filter [Sample.ann]) Sample.cid
                [("resourceName", PStr "people/c3");
                 ("memberships",
                  PList (List.map Sample.member_of [Sample.work]))]
                [Sample.cid] (PStr "error") eq_refl eq_refl
                (or_introl (conj eq_refl eq_refl)))
      as (H1 & H2 & H3 & H4 & H5 & _).
    rewrite H2, H3, H4, H5. split; [exact H1|]. repeat split.
  - destruct (createContact_success (Sample.answering (PDict [])) Sample.str
                (fst (createContact (Sample.answering (PDict [])) Sample.str
                        (Sample.adapter Sample.no_filter []) (PDict [])))
                (PDict []) [] [PDict []; PDict []] (PStr "error")
                eq_refl eq_refl (or_introl (conj eq_refl eq_refl)))
      as (_ & _ & _ & _ & H5 & _).
    rewrite H5. reflexivity.
Defined.

(** ** [getContacts], further *)

Ltac split_all := repeat match goal with |- _ /\ _ => split end.

Section FetchFacts.

Context {R : Type}.
Variable svc : Service R.

(** What a walk of the loop never changes, and what it changes only when
    it leaves with its last page. *)
Lemma fetch_loop_frame (fuel : nat) (g g' : Google R)
    (parameters parameters' : pydict) (acc : list pyval)
    (out : option (outcome pyval)) :
  fetch_loop svc fuel g parameters acc = (g', parameters', out) ->
  labelFilter g' = labelFilter g /\ database g' = database g
  /\ log g' = log g /\ dataAlreadyFetched g' = dataAlreadyFetched g
  /\ labelMapping g' = labelMapping g
  /\ reverseLabelMapping g' = reverseLabelMapping g
  /\ createdContacts g' = createdContacts g
  /\ apiRequests g <= apiRequests g'
  /\ ((forall result, out <> Some (Ok result)) -> contacts g' = contacts g)
  /\ (forall result, out = Some (Ok result) -> exists d, result = PDict d).
Proof.
  revert g parameters acc.
  induction fuel as [|fuel IH]; intros g parameters acc; simpl.
  - intros H. injection H as <- <- <-. split_all; auto. discriminate.
  - destruct (connections_list svc parameters (remote g))
      as [[result|e] r'].
    + destruct (get result "nextPageToken" (PBool false)) as [token|e] eqn:Ht.
      * destruct (page_contacts result) as [page|e].
        -- destruct (truthy token).
           ++ intros H. apply IH in H. simpl in H.
              destruct H as (? & ? & ? & ? & ? & ? & ? & ? & ? & ?).
              split_all; auto. lia.
           ++ cbn [labelFilter count_request with_remote].
              destruct (filterContactsByLabel (labelFilter g) (acc ++ page))
                as [kept|e]; intros H; injection H as <- <- <-;
                split_all; simpl; auto; try discriminate.
              ** intros Hn. exfalso. eapply Hn. reflexivity.
              ** intros result0 H. injection H as <-.
                 eapply get_Ok_dict, Ht.
        -- intros H. injection H as <- <- <-. split_all; simpl; auto.
           discriminate.
      * intros H. injection H as <- <- <-. split_all; simpl; auto.
        discriminate.
    + intros H. injection H as <- <- <-. split_all; simpl; auto.
      discriminate.
Qed.

Lemma fetchContacts_frame (fuel : nat) (g g' : Google R)
    (parameters parameters' : pydict) (out : option (outcome unit)) :
  fetchContacts svc fuel g parameters = (g', parameters', out) ->
  labelFilter g' = labelFilter g
  /\ log g' = log g /\ dataAlreadyFetched g' = dataAlreadyFetched g
  /\ labelMapping g' = labelMapping g
  /\ reverseLabelMapping g' = reverseLabelMapping g
  /\ createdContacts g' = createdContacts g
  /\ apiRequests g <= apiRequests g'
  /\ (out <> Some (Ok tt) ->
      contacts g' = contacts g /\ database g' = database g).
Proof.
  unfold fetchContacts.
  destruct (fetch_loop svc fuel g parameters []) as [[g1 p1] out1] eqn:Hl.
  destruct (fetch_loop_frame _ _ _ _ _ _ _ Hl)
    as (Hf & Hd & Hlog & Hflag & Hm & Hr & Hcr & Hn & Hc & Hdict).
  destruct out1 as [[result|e]|].
  - destruct (Hdict result eq_refl) as [d ->]. simpl.
    destruct (truthy (default PNone (assoc "nextSyncToken" d)));
      [destruct (database g1)|];
      intros H; injection H as <- <- <-; split_all; simpl; auto;
      intros Hne; exfalso; now apply Hne.
  - intros H. injection H as <- <- <-. split_all; auto;
      try (intros _; split; [apply Hc; discriminate|exact Hd]).
  - intros H. injection H as <- <- <-. split_all; auto;
      try (intros _; split; [apply Hc; discriminate|exact Hd]).
Qed.

End FetchFacts.

(** X17: with the database collaborator as it is modelled (it stores the
    token it is handed and does not raise), a fetch-all that does not
    return a list changes neither the cache nor the fetched mark nor the
    database: pages that were read before the failure are thrown away.  Whatever its end, [getContacts]
    leaves the label filter and the label mappings alone and never lowers
    the request counter. *)
Theorem getContacts_failure_keeps_cache {R : Type} (svc : Service R)
    (fuel : nat) (g g' : Google R) (refetchData : bool) (params : pydict)
    (out : option (outcome (list pyval))) :
  getContacts svc fuel g refetchData params = (g', out) ->
  labelFilter g' = labelFilter g
  /\ labelMapping g' = labelMapping g
  /\ reverseLabelMapping g' = reverseLabelMapping g
  /\ apiRequests g <= apiRequests g'
  /\ ((forall l, out <> Some (Ok l)) ->
      contacts g' = contacts g
      /\ dataAlreadyFetched g' = dataAlreadyFetched g
      /\ database g' = database g).
Proof.
  unfold getContacts.
  destruct (dataAlreadyFetched g && negb refetchData).
  { intros H. injection H as <- <-. split_all; auto. }
  destruct (fetchContacts svc fuel (logged Info fetching_msg g)
              (dict_merge base_parameters params))
    as [[g1 p1] out1] eqn:H1.
  destruct (fetchContacts_frame _ _ _ _ _ _ _ H1)
    as (Hf & Hlog & Hflag & Hm & Hr & Hcr & Hn & Hc).
  simpl in Hf, Hflag, Hm, Hr, Hn, Hc.
  assert (Hfail : out1 <> Some (Ok tt) ->
                  contacts g1 = contacts g /\ database g1 = database g)
    by exact Hc.
  destruct out1 as [[[]|e]|].
  - unfold getContacts_finish. intros H. injection H as <- <-.
    split_all; simpl; auto. intros Hne. exfalso. eapply Hne. reflexivity.
  - destruct (Hfail ltac:(discriminate)) as [Hc1 Hd1].
    assert (Hplain : forall e', (g1, Some (Raise e')) = (g', out) ->
              labelFilter g' = labelFilter g
              /\ labelMapping g' = labelMapping g
              /\ reverseLabelMapping g' = reverseLabelMapping g
              /\ apiRequests g <= apiRequests g'
              /\ ((forall l, out <> Some (Ok l)) ->
                  contacts g' = contacts g
                  /\ dataAlreadyFetched g' = dataAlreadyFetched g
                  /\ database g' = database g)).
    { intros e' H. injection H as <- <-. split_all; auto. }
    destruct e; try apply Hplain.
    destruct (contains "Sync token" reason); [|apply Hplain].
    destruct (dict_pop "syncToken" p1) as [[token p2]|e].
    + destruct (fetchContacts svc fuel (logged Warning token_expired_msg g1) p2)
        as [[g2 p3] out2] eqn:H2.
      destruct (fetchContacts_frame _ _ _ _ _ _ _ H2)
        as (Hf2 & Hlog2 & Hflag2 & Hm2 & Hr2 & Hcr2 & Hn2 & Hc2).
      simpl in Hf2, Hflag2, Hm2, Hr2, Hn2, Hc2.
      destruct out2 as [[[]|e]|].
      * unfold getContacts_finish. intros H. injection H as <- <-.
        split_all; simpl; try congruence; try lia.
        intros Hne. exfalso. eapply Hne. reflexivity.
      * destruct (Hc2 ltac:(discriminate)) as [Hc3 Hd3].
        intros H. injection H as <- <-.
        split_all; try congruence; try lia.
        intros _. split_all; congruence.
      * destruct (Hc2 ltac:(discriminate)) as [Hc3 Hd3].
        intros H. injection H as <- <-.
        split_all; try congruence; try lia.
        intros _. split_all; congruence.
    + intros H. injection H as <- <-. split_all; simpl; auto.
  - destruct (Hfail ltac:(discriminate)) as [Hc1 Hd1].
    intros H. injection H as <- <-. split_all; auto.
Qed.

(** The walk that the sample remote side refuses on its second request of
    a plain listing keeps the cached [cid]. *)
Lemma getContacts_failure_keeps_cache_witness :
  contacts
    (fst (getContacts
            (Sample.recording Sample.unused
               (fun n _ => match n with
                           | 0 => Ok Sample.page1
                           | _ => Raise (HttpError "Backend Error")
                           end)
               Sample.unused Sample.unused)
            5 (Sample.adapter Sample.no_filter [Sample.cid]) false []))
  = [Sample.cid].
Proof.
  set (svc := Sample.recording _ _ _ _).
  destruct (getContacts svc 5 (Sample.adapter Sample.no_filter [Sample.cid])
              false []) as [g' out] eqn:E.
  destruct (getContacts_failure_keeps_cache svc 5 _ g' false [] out E)
    as (_ & _ & _ & _ & H).
  destruct H as [H _]; [|exact H].
  intros l Hl. subst out. vm_compute in E. discriminate.
Defined.

Section RestartFacts.

Context {R : Type}.
Variable svc : Service R.


(** The loop on a remote side that serves [pages], when the filter
    accepts the accumulation: it leaves with the last of the pages. *)
Lemma fetch_loop_walk_last (parameters : pydict) (r : R)
    (pages : list pyval) (r' : R) :
  walk svc parameters r pages r' ->
  forall (lists : list (list pyval)) (fuel : nat) (g : Google R)
         (acc kept : list pyval),
    mapM page_contacts pages = Ok lists ->
    remote g = r ->
    length pages <= fuel ->
    filterContactsByLabel (labelFilter g) (acc ++ concat lists) = Ok kept ->
    exists parameters' d,
      last pages = Some (PDict d) /\
      fetch_loop svc fuel g parameters acc
      = (with_contacts kept (served (length pages) r' g), parameters',
         Some (Ok (PDict d))).
Proof.
  induction 1 as [parameters r page r' token Hreq Htok Ht
                 |parameters r page r1 token pages r' Hreq Htok Ht Hw IH];
    intros lists fuel g acc kept Hl Hr Hfuel Hf; cbn [mapM] in Hl;
    apply bind_Ok_inv in Hl as (l1 & Hl1 & Hl);
    apply bind_Ok_inv in Hl as (ls & Hls & Hl); injection Hl as <-;
    (destruct fuel as [|fuel]; [simpl in Hfuel; lia|]);
    simpl; rewrite Hr, Hreq, Htok, Hl1, Ht.
  - injection Hls as <-. simpl in Hf. rewrite app_nil_r in Hf.
    destruct (get_Ok_dict _ _ _ _ Htok) as [d ->].
    exists parameters, d. split; [reflexivity|].
    cbn [labelFilter count_request with_remote]. rewrite Hf. reflexivity.
  - destruct (IH ls fuel (count_request (with_remote r1 g)) (acc ++ l1) kept
                Hls eq_refl) as (parameters' & d & Hlast & ->).
    { simpl in Hfuel. lia. }
    { cbn [labelFilter count_request with_remote]. rewrite <- app_assoc.
      exact Hf. }
    exists parameters', d. split.
    + rewrite last_cons, Hlast. reflexivity.
    + rewrite served_count_request. reflexivity.
Qed.

(** The walk of [__fetchContacts] on such a remote side, with the sync
    token of the last page handed to the database. *)
Lemma fetchContacts_walk (g : Google R) (parameters : pydict)
    (pages : list pyval) (r' : R) (lists : list (list pyval))
    (kept : list pyval) (fuel : nat) :
  walk svc parameters (remote g) pages r' ->
  mapM page_contacts pages = Ok lists ->
  filterContactsByLabel (labelFilter g) (concat lists) = Ok kept ->
  length pages <= fuel ->
  exists g' parameters' d,
    fetchContacts svc fuel g parameters = (g', parameters', Some (Ok tt))
    /\ last pages = Some (PDict d)
    /\ contacts g' = kept
    /\ apiRequests g' = length pages + apiRequests g
    /\ remote g' = r' /\ log g' = log g
    /\ dataAlreadyFetched g' = dataAlreadyFetched g
    /\ database g'
       = match database g with
         | Some db =>
             if truthy (default PNone (assoc "nextSyncToken" d))
             then Some (updateGoogleNextSyncToken
                          (default PNone (assoc "nextSyncToken" d)) db)
             else Some db
         | None => None
         end.
Proof.
  intros Hw Hl Hf Hfuel.
  destruct (fetch_loop_walk_last parameters (remote g) pages r' Hw lists fuel
              g [] kept Hl eq_refl Hfuel Hf)
    as (parameters' & d & Hlast & Hloop).
  unfold fetchContacts. rewrite Hloop. simpl.
  destruct (database g) as [db|] eqn:Ed;
    destruct (truthy (default PNone (assoc "nextSyncToken" d))) eqn:Et;
    simpl; rewrite ?Ed; do 2 eexists; exists d;
    (split; [reflexivity|]); (split; [exact Hlast|]);
    split_all; simpl; rewrite ?Ed, ?Et; reflexivity.
Qed.

Lemma getContacts_Ok_inv (fuel : nat) (g g1 : Google R) (refetchData : bool)
    (params : pydict) (l : list pyval) :
  getContacts svc fuel g refetchData params = (g1, Some (Ok l)) ->
  l = contacts g1 /\ dataAlreadyFetched g1 = true.
Proof.
  unfold getContacts.
  destruct (dataAlreadyFetched g && negb refetchData) eqn:Hskip.
  { intros H. injection H as <- <-. apply andb_true_iff in Hskip as [Hs _].
    auto. }
  destruct (fetchContacts svc fuel (logged Info fetching_msg g)
              (dict_merge base_parameters params)) as [[g2 p2] [[[]|e]|]];
    try discriminate.
  - unfold getContacts_finish. intros H. injection H as <- <-. auto.
  - destruct e; try discriminate.
    destruct (contains "Sync token" reason); [|discriminate].
    destruct (dict_pop "syncToken" p2) as [[token p3]|e]; [|discriminate].
    destruct (fetchContacts svc fuel (logged Warning token_expired_msg g2) p3)
      as [[g3 p4] [[[]|e]|]]; try discriminate.
    unfold getContacts_finish. intros H. injection H as <- <-. auto.
Qed.

End RestartFacts.

(** X18: a fetch-all that returned a list is not repeated.  The list is
    the cache, the adapter is marked as fetched, and every later call
    without [refetchData] returns the same list without a request, a log
    record or any other change, whatever its parameters. *)
Theorem getContacts_second_call {R : Type} (svc : Service R) (fuel : nat)
    (g g1 : Google R) (refetchData : bool) (params : pydict)
    (l : list pyval) :
  getContacts svc fuel g refetchData params = (g1, Some (Ok l)) ->
  l = contacts g1 /\ dataAlreadyFetched g1 = true
  /\ (forall fuel' params',
        getContacts svc fuel' g1 false params' = (g1, Some (Ok l))).
Proof.
  intros H. destruct (getContacts_Ok_inv svc _ _ _ _ _ _ H) as [-> Hflag].
  split; [reflexivity|]. split; [exact Hflag|].
  intros fuel' params'. unfold getContacts. rewrite Hflag. reflexivity.
Qed.

Lemma getContacts_second_call_witness :
  let g1 := fst (getContacts Sample.two_pages 5
                   (Sample.adapter Sample.no_filter []) false []) in
  getContacts Sample.two_pages 0 g1 false [("syncToken", PStr "s2")]
  = (g1, Some (Ok [Sample.ann; Sample.bob])).
Proof.
  apply (getContacts_second_call Sample.two_pages 5
           (Sample.adapter Sample.no_filter []) _ false []).
  reflexivity.
Defined.



(** X20: the failures of a fetch-all that reach the caller.  A first
    request that is refused with a reason without "Sync token" ends the
    call in a plain exception with that reason, after the one request; any
    other exception of the first request reaches the caller as it is.
    When the first request is refused for its sync token and the request
    of the retry is refused or fails too, that second exception reaches
    the caller as it is after exactly two requests: there is no second
    retry. *)
Theorem getContacts_failures {R : Type} (svc : Service R) (fuel : nat)
    (g : Google R) (refetchData : bool) (params : pydict) (e : exn) (r1 : R) :
  dataAlreadyFetched g && negb refetchData = false ->
  connections_list svc (dict_merge base_parameters params) (remote g)
  = (Raise e, r1) ->
  let g1 := with_remote r1 (logged Info fetching_msg g) in
  (forall reason,
     e = HttpError reason -> contains "Sync token" reason = false ->
     getContacts svc (S fuel) g refetchData params
     = (g1, Some (Raise (PyException reason))))
  /\ ((forall reason, e <> HttpError reason) ->
      getContacts svc (S fuel) g refetchData params = (g1, Some (Raise e)))
  /\ (forall reason token e2 r2,
        e = HttpError reason -> contains "Sync token" reason = true ->
        assoc "syncToken" (dict_merge base_parameters params) = Some token ->
        connections_list svc
          (dict_remove "syncToken" (dict_merge base_parameters params)) r1
        = (Raise e2, r2) ->
        getContacts svc (S fuel) g refetchData params
        = (with_remote r2 (logged Warning token_expired_msg g1),
           Some (Raise e2))).
Proof.
  intros Hskip Hreq g1.
  pose proof (fetchContacts_first_request_fails svc fuel
                (logged Info fetching_msg g) _ e r1 Hreq) as Hfirst.
  split; [|split].
  - intros reason -> Hreason.
    apply (getContacts_other_failure svc (S fuel) g g1 refetchData params
             (dict_merge base_parameters params) reason Hskip Hfirst Hreason).
  - intros Hne. unfold getContacts. rewrite Hskip, Hfirst.
    destruct e; try reflexivity. exfalso. eapply Hne. reflexivity.
  - intros reason token e2 r2 -> Hreason Htoken Hreq2.
    rewrite (getContacts_restart svc (S fuel) g g1 refetchData params
               (dict_merge base_parameters params)
               (dict_remove "syncToken" (dict_merge base_parameters params))
               reason token Hskip Hfirst Hreason).
    + rewrite (fetchContacts_first_request_fails svc fuel
                 (logged Warning token_expired_msg g1) _ e2 r2 Hreq2).
      reflexivity.
    + unfold dict_pop. rewrite Htoken. reflexivity.
Qed.

(** A remote side that refuses every listing with a backend error. *)
Lemma getContacts_failures_witness :
  snd (getContacts
         (Sample.recording Sample.unused
            (fun _ _ => Raise (HttpError "Backend Error"))
            Sample.unused Sample.unused)
         1 (Sample.adapter Sample.no_filter [Sample.cid]) true [])
  = Some (Raise (PyException "Backend Error")).
Proof.
  set (svc := Sample.recording _ _ _ _).
  destruct (getContacts_failures svc 0
              (Sample.adapter Sample.no_filter [Sample.cid]) true []
              (HttpError "Backend Error") [PDict base_parameters]
              eq_refl eq_refl) as [H _].
  rewrite (H "Backend Error" eq_refl eq_refl). reflexivity.
Defined.

(** X21: the sync token of a finished walk.  After a walk over served
    pages whose filtered accumulation has become the cache, the database
    has been handed the [nextSyncToken] of the last page when the adapter
    has a database and that token counts as true; otherwise the database
    attribute is as before. *)
Theorem fetchContacts_hands_over_sync_token {R : Type} (svc : Service R)
    (g : Google R) (parameters : pydict) (pages : list pyval) (r' : R)
    (lists : list (list pyval)) (kept : list pyval) (fuel : nat) :
  walk svc parameters (remote g) pages r' ->
  mapM page_contacts pages = Ok lists ->
  filterContactsByLabel (labelFilter g) (concat lists) = Ok kept ->
  length pages <= fuel ->
  exists d,
    last pages = Some (PDict d)
    /\ database (fst (fst (fetchContacts svc fuel g parameters)))
       = match database g with
         | Some db =>
             if truthy (default PNone (assoc "nextSyncToken" d))
             then Some (updateGoogleNextSyncToken
                          (default PNone (assoc "nextSyncToken" d)) db)
             else Some db
         | None => None
         end.
Proof.
  intros Hw Hl Hf Hfuel.
  destruct (fetchContacts_walk svc g parameters pages r' lists kept fuel
              Hw Hl Hf Hfuel)
    as (g' & p' & d & Hfetch & Hlast & _ & _ & _ & _ & _ & Hdb).
  exists d. split; [exact Hlast|]. rewrite Hfetch. exact Hdb.
Qed.

Lemma fetchContacts_hands_over_sync_token_witness :
  database
    (fst (fst (fetchContacts Sample.two_pages 5
                 (with_database (Some {| storedSyncToken := None |})
                    (Sample.adapter Sample.no_filter []))
                 base_parameters)))
  = Some {| storedSyncToken := Some (PStr "s2") |}.
Proof.
  assert (Hw : walk Sample.two_pages base_parameters []
                 [Sample.page1; Sample.page2]
                 [PDict base_parameters;
                  PDict (dict_set "pageToken" (PStr "t1") base_parameters)]).
  { eapply walk_next; [reflexivity | reflexivity | reflexivity |].
    eapply walk_last; reflexivity. }
  destruct (fetchContacts_hands_over_sync_token Sample.two_pages
              (with_database (Some {| storedSyncToken := None |})
                 (Sample.adapter Sample.no_filter []))
              base_parameters _ _ [[Sample.ann]; [Sample.bob]]
              [Sample.ann; Sample.bob] 5 Hw eq_refl eq_refl
              ltac:(simpl; lia)) as (d & Hlast & Hdb).
  rewrite Hdb. injection Hlast as <-. reflexivity.
Defined.

(** ** The payload builder, further *)

Lemma form_groups firstName lastName middleName birthdate phoneNumbers career
    emailAdresses labelIds addresses data :
  Form.GoogleContactUploadForm firstName lastName middleName birthdate
    phoneNumbers career emailAdresses labelIds addresses = Ok data ->
  (birthdate <> [] ->
   assoc "birthdays" data = Some (Form.birthdays_group birthdate))
  /\ (career <> [] ->
      assoc "organizations" data = Some (Form.organizations_group career))
  /\ (phoneNumbers <> [] ->
      assoc "phoneNumbers" data
      = Some (PList (List.map Form.tagged_other phoneNumbers)))
  /\ (emailAdresses <> [] ->
      assoc "emailAddresses" data
      = Some (PList (List.map Form.tagged_other emailAdresses)))
  /\ (labelIds <> [] ->
      assoc "memberships" data
      = Some (PList (List.map Form.membership labelIds))).
Proof.
  unfold Form.GoogleContactUploadForm.
  destruct addresses as [|a l].
  - intros H. injection H as <-.
    destruct birthdate, career, phoneNumbers, emailAdresses, labelIds;
      split_all; intros; try congruence; reflexivity.
  - change (nonempty (a :: l)) with true. cbv iota.
    destruct (mapM Form.address_entry (a :: l)) as [entries|e]; [|
      destruct birthdate, career; discriminate].
    intros H.
    destruct birthdate, career, phoneNumbers, emailAdresses, labelIds;
      injection H as <-; split_all; intros; try congruence; reflexivity.
Qed.

(** X22: the birthdays and organizations groups.  A non-empty birth date
    gives one birthday whose date holds the year, month and day of the
    input, 0 for a part the input lacks; a non-empty career gives one
    organization with the company as name and the job as title, the empty
    string for a part the input lacks. *)
Theorem form_birthdays_and_organizations
    (firstName lastName middleName : string) (birthdate : pydict)
    (phoneNumbers : list string) (career : pydict)
    (emailAdresses labelIds : list string) (addresses : list pydict)
    (data : pydict) :
  Form.GoogleContactUploadForm firstName lastName middleName birthdate
    phoneNumbers career emailAdresses labelIds addresses = Ok data ->
  (birthdate <> [] ->
   assoc "birthdays" data
   = Some (PList [PDict [("date",
       PDict [("year", default (PInt 0) (assoc "year" birthdate));
              ("month", default (PInt 0) (assoc "month" birthdate));
              ("day", default (PInt 0) (assoc "day" birthdate))])]]))
  /\ (career <> [] ->
      assoc "organizations" data
      = Some (PList [PDict
          [("name", default (PStr "") (assoc "company" career));
           ("title", default (PStr "") (assoc "job" career))]])).
Proof.
  intros H. destruct (form_groups _ _ _ _ _ _ _ _ _ _ H) as (Hb & Hc & _).
  split; assumption.
Qed.

Lemma form_birthdays_and_organizations_witness :
  let birthdate := [("year", PInt 1990); ("month", PInt 5); ("day", PInt 1)] in
  let career := [("job", PStr "Analyst")] in
  let data := [("names", Form.names_group "Ada" "Lovelace" "");
               ("birthdays", Form.birthdays_group birthdate);
               ("organizations", Form.organizations_group career)] in
  assoc "birthdays" data
  = Some (PList [PDict [("date",
      PDict [("year", PInt 1990); ("month", PInt 5); ("day", PInt 1)])]])
  /\ assoc "organizations" data
     = Some (PList [PDict [("name", PStr ""); ("title", PStr "Analyst")]]).
Proof.
  intros birthdate career data.
  destruct (form_birthdays_and_organizations "Ada" "Lovelace" "" birthdate
              [] career [] [] [] data eq_refl) as [Hb Hc].
  split; [apply Hb | apply Hc]; discriminate.
Defined.

(** X23: the phone numbers, email addresses and memberships groups.  Each
    non-empty input list gives a group with one entry per element, in the
    order of the input: a phone number or an email address as the value of
    an entry of type "other", a label id as the
    [contactGroupResourceName] of a contact group membership. *)
Theorem form_list_groups
    (firstName lastName middleName : string) (birthdate : pydict)
    (phoneNumbers : list string) (career : pydict)
    (emailAdresses labelIds : list string) (addresses : list pydict)
    (data : pydict) :
  Form.GoogleContactUploadForm firstName lastName middleName birthdate
    phoneNumbers career emailAdresses labelIds addresses = Ok data ->
  (phoneNumbers <> [] ->
   assoc "phoneNumbers" data
   = Some (PList (List.map
                    (fun number => PDict [("value", PStr number);
                                          ("type", PStr "other")])
                    phoneNumbers)))
  /\ (emailAdresses <> [] ->
      assoc "emailAddresses" data
      = Some (PList (List.map
                       (fun email => PDict [("value", PStr email);
                                            ("type", PStr "other")])
                       emailAdresses)))
  /\ (labelIds <> [] ->
      assoc "memberships" data
      = Some (PList (List.map
                       (fun labelId =>
                          PDict [("contactGroupMembership",
                                  PDict [("contactGroupResourceName",
                                          PStr labelId)])])
                       labelIds))).
Proof.
  intros H.
  destruct (form_groups _ _ _ _ _ _ _ _ _ _ H) as (_ & _ & Hp & He & Hl).
  split_all; assumption.
Qed.

Lemma form_list_groups_witness :
  let data := [("names", Form.names_group "Ada" "Lovelace" "");
               ("phoneNumbers",
                PList (List.map Form.tagged_other ["+44 1"; "+44 2"]));
               ("memberships",
                PList (List.map Form.membership [Sample.friends]))] in
  assoc "phoneNumbers" data
  = Some (PList [PDict [("value", PStr "+44 1"); ("type", PStr "other")];
                 PDict [("value", PStr "+44 2"); ("type", PStr "other")]])
  /\ assoc "memberships" data
     = Some (PList [PDict [("contactGroupMembership",
                            PDict [("contactGroupResourceName",
                                    PStr "contactGroups/friends")])]]).
Proof.
  intros data.
  destruct (form_list_groups "Ada" "Lovelace" "" [] ["+44 1"; "+44 2"] []
              [] [Sample.friends] [] data eq_refl) as (Hp & _ & Hl).
  split; [apply Hp | apply Hl]; discriminate.
Defined.

(** ** The label filter, further *)

Lemma filterM_idempotent {A} (p : A -> outcome bool) (l kept : list A) :
  filterM p l = Ok kept -> filterM p kept = Ok kept.
Proof.
  revert kept. induction l as [|x l IH]; simpl; intros kept H.
  - injection H as <-. reflexivity.
  - apply bind_Ok_inv in H as (b & Hb & H).
    apply bind_Ok_inv in H as (ys & Hys & H). injection H as <-.
    specialize (IH ys Hys). destruct b; [|exact IH].
    simpl. rewrite Hb, IH. reflexivity.
Qed.

Lemma filterM_sublist {A} (p : A -> outcome bool) (l kept : list A) :
  filterM p l = Ok kept -> sublist kept l.
Proof.
  revert kept. induction l as [|x l IH]; simpl; intros kept H.
  - injection H as <-. constructor.
  - apply bind_Ok_inv in H as (b & Hb & H).
    apply bind_Ok_inv in H as (ys & Hys & H). injection H as <-.
    specialize (IH ys Hys). destruct b; now constructor.
Qed.

(** X24: the label filter distributes over concatenation: filtering two
    lists one after the other and joining the results is filtering the
    joined list, also in what it raises (the first exception, from
    the first list if it has one).  Filtering page by page would thus give
    what the walk gets by filtering the accumulation. *)
Theorem filter_distributes_over_append (lf : LabelFilter)
    (l1 l2 : list pyval) :
  filterContactsByLabel lf (l1 ++ l2)
  = let* kept1 := filterContactsByLabel lf l1 in
    let* kept2 := filterContactsByLabel lf l2 in
    Ok (kept1 ++ kept2).
Proof.
  unfold filterContactsByLabel.
  destruct (nonempty (include lf)); [apply filterM_app|].
  destruct (nonempty (exclude lf)); [apply filterM_app|]. reflexivity.
Qed.

(** X25: the label filter only drops contacts, and it is idempotent: what
    it returns is a sublist of the input, so never longer and in the same
    order, and filtering that result again returns it unchanged. *)
Theorem filter_idempotent (lf : LabelFilter) (contactList kept : list pyval) :
  filterContactsByLabel lf contactList = Ok kept ->
  sublist kept contactList
  /\ length kept <= length contactList
  /\ filterContactsByLabel lf kept = Ok kept.
Proof.
  intros H.
  assert (Hs : sublist kept contactList).
  { unfold filterContactsByLabel in H.
    destruct (nonempty (include lf)); [eapply filterM_sublist, H|].
    destruct (nonempty (exclude lf)); [eapply filterM_sublist, H|].
    injection H as <-. reflexivity. }
  split; [exact Hs|]. split; [apply sublist_length, Hs|].
  unfold filterContactsByLabel in *.
  destruct (nonempty (include lf)); [eapply filterM_idempotent, H|].
  destruct (nonempty (exclude lf)); [eapply filterM_idempotent, H|].
  reflexivity.
Qed.

Lemma filter_idempotent_witness :
  filterContactsByLabel Sample.friends_not_spam [Sample.ann] = Ok [Sample.ann].
Proof.
  apply (filter_idempotent Sample.friends_not_spam
           [Sample.ann; Sample.bob; Sample.cid] [Sample.ann] eq_refl).
Defined.
